(** * papack/api: the request dispatcher of [src/core/api.ts]

    A shallow embedding of the HTTP request-lifecycle core: the error
    classes of [http-error], the per-request dispatcher created in the
    [Api] constructor (CORS headers, the OPTIONS short-circuit, route
    lookup, body acquisition, the four route kinds), [handleError], and
    the server-sent-events session ([runCleanup], [emit], [onCleanup]).

    Conventions of the embedding.
    - A [Buffer] is a list of bytes, the request stream is the list of
      chunks the transport delivers, in order.
    - A JavaScript string that comes out of UTF-8 decoding is a list of
      Unicode code points ([Text]); strings the core writes itself are
      Rocq strings.
    - The response object is a record; [setHeader], the assignment to
      [statusCode], [write] and [end] are functions on it.
    - Asynchrony is explicit: what happens to an SSE session over time
      is a list of events (calls of the handler, close events of the
      transport, the settling of an awaited cleanup promise). *)

From Stdlib Require Import ZArith List String Ascii Bool Lia.
From stdpp Require Import base gmap strings list.
Import ListNotations.

Local Open Scope Z_scope.

(** ** Strings *)

(** The double quote and the line feed, which the source writes inside
    template literals. *)
Definition dquote : string := String (ascii_of_nat 34) EmptyString.
Definition LF : string := String (ascii_of_nat 10) EmptyString.

(** [`"${code}"`] *)
Definition quoted (code : string) : string := dquote +:+ code +:+ dquote.

(** ** Buffers and UTF-8 decoding *)

Definition Buffer := list Byte.byte.
Definition codepoint := Z.
Definition Text := list codepoint.

Definition byte_value (b : Byte.byte) : Z := Z.of_N (Byte.to_N b).

(** [chunk.length] *)
Definition Buffer_length (b : Buffer) : Z := Z.of_nat (List.length b).

(** [Buffer.prototype.toString("utf8")] is platform code. It is modelled
    by the standard UTF-8 decoder with replacement: a state machine over
    the bytes that emits U+FFFD for every ill-formed or truncated
    sequence. *)
Module Utf8.

Definition REPLACEMENT : codepoint := 0xFFFD.

Inductive State :=
| Idle
| Pending (cp : Z) (remaining : nat) (lower upper : Z).

Definition between (lo b hi : Z) : bool := (lo <=? b) && (b <=? hi).

(** A byte met while no sequence is open. *)
Definition lead (b : Z) : State * Text :=
  if b <=? 0x7F then (Idle, [b])
  else if between 0xC2 b 0xDF then
    (Pending (Z.land b 0x1F) 1 0x80 0xBF, [])
  else if between 0xE0 b 0xEF then
    (Pending (Z.land b 0xF) 2
       (if b =? 0xE0 then 0xA0 else 0x80)
       (if b =? 0xED then 0x9F else 0xBF), [])
  else if between 0xF0 b 0xF4 then
    (Pending (Z.land b 0x7) 3
       (if b =? 0xF0 then 0x90 else 0x80)
       (if b =? 0xF4 then 0x8F else 0xBF), [])
  else (Idle, [REPLACEMENT]).

Definition step (st : State) (b : Z) : State * Text :=
  match st with
  | Idle => lead b
  | Pending cp remaining lower upper =>
      if between lower b upper then
        let cp' := Z.lor (Z.shiftl cp 6) (Z.land b 0x3F) in
        match remaining with
        | S (S r) => (Pending cp' (S r) 0x80 0xBF, [])
        | _ => (Idle, [cp'])
        end
      else
        let '(st', out) := lead b in (st', REPLACEMENT :: out)
  end.

(** Feeding bytes: the state reached and the code points emitted. *)
Fixpoint feed (st : State) (bytes : list Z) : State * Text :=
  match bytes with
  | [] => (st, [])
  | b :: rest =>
      let '(st1, out1) := step st b in
      let '(st2, out2) := feed st1 rest in
      (st2, out1 ++ out2)
  end.

(** End of input: an open sequence is truncated. *)
Definition flush (st : State) : Text :=
  match st with
  | Idle => []
  | Pending _ _ _ _ => [REPLACEMENT]
  end.

Definition decode (bytes : list Z) : Text :=
  let '(st, out) := feed Idle bytes in out ++ flush st.

(** The decoder is back in its initial state after [bytes]: no
    multi-byte sequence is left open. *)
Definition complete (bytes : list Z) : Prop := fst (feed Idle bytes) = Idle.

End Utf8.

(** [buf.toString("utf8")] *)
Definition toString_utf8 (buf : Buffer) : Text :=
  Utf8.decode (List.map byte_value buf).

(** ** [http-error]: the error classes *)

(** An instance of [HttpError] is fixed by the two arguments of its
    constructor, [protected constructor(statusCode, code)]: the readonly
    fields [statusCode] and [body] and the inherited [message] are set
    there and nowhere else. *)
Inductive HttpError :=
| HttpError_new (statusCode : Z) (code : string).

Definition statusCode (err : HttpError) : Z :=
  let 'HttpError_new statusCode _ := err in statusCode.

(** [this.body = `"${code}"`] *)
Definition body (err : HttpError) : string :=
  let 'HttpError_new _ code := err in quoted code.

(** [super(code)] *)
Definition message (err : HttpError) : string :=
  let 'HttpError_new _ code := err in code.

Definition NotFoundError : HttpError := HttpError_new 404 "NOT_FOUND".
Definition MethodNotAllowedError : HttpError := HttpError_new 405 "METHOD_NOT_ALLOWED".
Definition BadRequestError : HttpError := HttpError_new 400 "BAD_REQUEST".
Definition UnauthorizedError : HttpError := HttpError_new 401 "UNAUTHORIZED".
Definition ForbiddenError : HttpError := HttpError_new 403 "FORBIDDEN".
Definition InternalServerError : HttpError := HttpError_new 500 "INTERNAL_ERROR".
Definition NotImplementedError : HttpError := HttpError_new 501 "NOT_IMPLEMENTED".

(** [ValidationError] of [@papack/schema] is not part of this repository;
    the dispatcher only reads its [code] field. *)
Record ValidationError := mkValidationError {
  code : string;
  detail : string
}.

(** Whatever a [throw] can carry, as [handleError] tells it apart with
    [instanceof]. [ThrownOther] stands for every other value; its payload
    is what an [Error] would bring along (message, stack). *)
Inductive Thrown :=
| ThrownHttpError (err : HttpError)
| ThrownValidationError (err : ValidationError)
| ThrownOther (description : string).

(** The completion of a call: a normal return or a throw. *)
Inductive Completion (A : Type) :=
| Normal (a : A)
| Throw (e : Thrown).
Arguments Normal {A} a.
Arguments Throw {A} e.

(** ** The response object *)

(** What has been handed to the response stream. *)
Inductive Written :=
| WText (s : string)
| WBuffer (b : Buffer)
| WPipe (source : list Buffer).

Record ServerResponse := mkServerResponse {
  res_statusCode : Z;
  res_headers : gmap string string;
  res_body : list Written;
  res_finished : bool
}.

(** The response as the platform hands it to the request listener. *)
Definition fresh_response : ServerResponse :=
  {| res_statusCode := 200; res_headers := ∅; res_body := []; res_finished := false |}.

Definition setHeader (name value : string) (res : ServerResponse) : ServerResponse :=
  {| res_statusCode := res_statusCode res;
     res_headers := <[name := value]> (res_headers res);
     res_body := res_body res;
     res_finished := res_finished res |}.

(** [res.statusCode = n] *)
Definition set_statusCode (n : Z) (res : ServerResponse) : ServerResponse :=
  {| res_statusCode := n;
     res_headers := res_headers res;
     res_body := res_body res;
     res_finished := res_finished res |}.

Definition write (data : Written) (res : ServerResponse) : ServerResponse :=
  {| res_statusCode := res_statusCode res;
     res_headers := res_headers res;
     res_body := res_body res ++ [data];
     res_finished := res_finished res |}.

(** [res.end(data)]; [res.end()] and [res.end(undefined)] pass [None]. *)
Definition end_ (data : option Written) (res : ServerResponse) : ServerResponse :=
  {| res_statusCode := res_statusCode res;
     res_headers := res_headers res;
     res_body := res_body res ++ match data with Some d => [d] | None => [] end;
     res_finished := true |}.

(** [data.pipe(res)] *)
Definition pipe (source : list Buffer) (res : ServerResponse) : ServerResponse :=
  write (WPipe source) res.

(** The text of a response whose body only holds strings. *)
Fixpoint body_text (ws : list Written) : option string :=
  match ws with
  | [] => Some EmptyString
  | WText s :: rest =>
      match body_text rest with
      | Some t => Some (s +:+ t)
      | None => None
      end
  | _ :: _ => None
  end.

(** ** [Api.handleError] *)

Definition handleError (err : Thrown) (res : ServerResponse) : ServerResponse :=
  match err with
  | ThrownHttpError e =>
      end_ (Some (WText (body e))) (set_statusCode (statusCode e) res)
  | ThrownValidationError e =>
      end_ (Some (WText (quoted (code e)))) (set_statusCode 400 res)
  | ThrownOther _ =>
      end_ (Some (WText (quoted "INTERNAL_ERROR"))) (set_statusCode 500 res)
  end.

(** ** Values, serialisation and callbacks *)

(** What [JSON.stringify] (platform code) does with a value: it returns
    text, returns [undefined] (a function, a symbol) or throws (a cycle,
    a BigInt, a throwing [toJSON]). *)
Inductive Stringified :=
| JsonText (text : string)
| JsonUndefined
| JsonThrows (e : Thrown).

(** The two directions of the connection whose close event is listened
    to: [req.on("close", ...)] and [res.on("close", ...)]. *)
Inductive Side := RequestSide | ResponseSide.

(** A cleanup callback, as [runCleanup] experiences it: the call throws
    at once, or it returns something that [await] waits for. *)
Inductive CallbackBehaviour := ThrowsSync | Awaited.

Record Callback := mkCallback {
  cb_id : nat;
  cb_behaviour : CallbackBehaviour
}.

Section Dispatcher.

(** The application context, and the JavaScript values other than
    [undefined] that handlers return or emit. *)
Variable Ctx : Type.
Variable Value : Type.
Variable JSON_stringify : Value -> Stringified.

(** A JavaScript value: [None] is [undefined]. *)
Definition JsValue := option Value.

Definition stringify (v : JsValue) : Stringified :=
  match v with
  | Some v => JSON_stringify v
  | None => JsonUndefined
  end.

(** *** Requests and contexts *)

(** [req]: the method and url the platform parsed, the chunks still to
    be read from the stream, and the [body] property the dispatcher
    attaches. *)
Record IncomingMessage := mkIncomingMessage {
  req_method : option string;
  req_url : option string;
  req_stream : list Buffer;
  req_body : option Text
}.

(** [Context<Ctx>]: [{ req, res, ...this.ctx }]. The response handle is
    not part of the record, handlers being modelled by their completion.
    The spread of the application context is kept as one field: an
    application context is taken not to define [req] or [res] itself. *)
Record Context := mkContext {
  ctx_req : IncomingMessage;
  ctx_app : Ctx
}.

(** *** The SSE session *)

(** What happens to an open session, in the order it happens: the
    handler calls [emit] or [onCleanup], the transport emits [close] on
    one side, the promise [runCleanup] awaits settles (fulfilled or
    rejected), the handler's own promise settles. *)
Inductive Event :=
| EvEmit (event : string) (data : JsValue)
| EvOnCleanup (fn : Callback)
| EvClose (side : Side)
| EvSettle (rejected : bool)
| EvReturn (c : Completion unit).

(** The closure variables [cleanups] and [closed]; [cursor] is the
    index the suspended [for ... of] loop of [runCleanup] visits next
    ([None]: no loop is suspended); [ran] logs the callbacks invoked so
    far. *)
Record Session := mkSession {
  cleanups : list Callback;
  closed : bool;
  cursor : option nat;
  ran : list Callback
}.

Definition new_session : Session :=
  {| cleanups := []; closed := false; cursor := None; ran := [] |}.

(** [cleanups.push(fn)] *)
Definition onCleanup (fn : Callback) (s : Session) : Session :=
  {| cleanups := cleanups s ++ [fn]; closed := closed s;
     cursor := cursor s; ran := ran s |}.

(** The loop [for (const fn of cleanups) { try { await fn() } catch {} }]
    from index [i] on, over the elements [rest] still ahead: a callback
    that throws is skipped over at once, any other suspends the loop
    after its call. *)
Fixpoint drain (rest : list Callback) (i : nat) (log : list Callback)
  : option nat * list Callback :=
  match rest with
  | [] => (None, log)
  | fn :: rest' =>
      match cb_behaviour fn with
      | ThrowsSync => drain rest' (S i) (log ++ [fn])
      | Awaited => (Some (S i), log ++ [fn])
      end
  end.

Definition loop_from (i : nat) (s : Session) : Session :=
  let '(cur, log) := drain (skipn i (cleanups s)) i (ran s) in
  {| cleanups := cleanups s; closed := closed s; cursor := cur; ran := log |}.

Definition runCleanup (s : Session) : Session :=
  if closed s then s
  else loop_from 0 {| cleanups := cleanups s; closed := true;
                      cursor := cursor s; ran := ran s |}.

(** The awaited promise settles: the loop goes on. *)
Definition settle (s : Session) : Session :=
  match cursor s with
  | Some i => loop_from i s
  | None => s
  end.

(** [sseCtx.emit(event, data)]; [String(event)] is the event name. *)
Definition emit (event : string) (data : JsValue)
    (st : Session * ServerResponse) : Completion unit * (Session * ServerResponse) :=
  let '(s, res) := st in
  if closed s then (Normal tt, st)
  else
    let res1 := write (WText ("event: " +:+ event +:+ LF)) res in
    match stringify data with
    | JsonText t =>
        (Normal tt, (s, write (WText ("data: " +:+ t +:+ LF +:+ LF)) res1))
    | JsonUndefined =>
        (Normal tt, (s, write (WText ("data: undefined" +:+ LF +:+ LF)) res1))
    | JsonThrows e => (Throw e, (s, res1))
    end.

Definition step (ev : Event) (st : Session * ServerResponse)
  : Session * ServerResponse :=
  match ev with
  | EvEmit event data => snd (emit event data st)
  | EvOnCleanup fn => (onCleanup fn (fst st), snd st)
  | EvClose _ => (runCleanup (fst st), snd st)
  | EvSettle _ => (settle (fst st), snd st)
  | EvReturn (Normal _) => st
  | EvReturn (Throw e) => (fst st, handleError e (snd st))
  end.

Definition run (events : list Event) (st : Session * ServerResponse)
  : Session * ServerResponse :=
  fold_left (fun st ev => step ev st) events st.

(** *** Routes and the [Api] object *)

Inductive Kind := KindRpc | KindSse | KindBlob | KindUpload.

(** What a blob handler returns: [Buffer | Readable]. *)
Inductive BlobData :=
| BlobBuffer (data : Buffer)
| BlobReadable (source : list Buffer).

(** [Route<Ctx>]. A handler is modelled by how its call completes. The
    SSE handler holds the connection open; it is modelled by the
    schedule of the session it opens: its calls of [emit] and
    [onCleanup] and its completion, interleaved with the close events
    of the transport and the settling of awaited cleanups. *)
Inductive Route :=
| RouteRpc (handler : Context -> Completion JsValue)
| RouteSse (handler : Context -> list Event)
| RouteBlob (handler : Context -> Completion BlobData)
| RouteUpload (handler : Context -> Completion JsValue).

Definition kind (route : Route) : Kind :=
  match route with
  | RouteRpc _ => KindRpc
  | RouteSse _ => KindSse
  | RouteBlob _ => KindBlob
  | RouteUpload _ => KindUpload
  end.

Record CorsOptions := mkCorsOptions { origin : string }.

Record Options := mkOptions {
  maxRequestSize : option Z;
  cors : option CorsOptions
}.

(** The fields of an [Api] instance, and the [options] argument its
    request listener closes over. *)
Record Api := mkApi {
  api_routes : gmap string Route;
  api_ctx : Ctx;
  api_cors : option CorsOptions;
  api_options : option Options
}.

(** [new Api(ctx, options)] *)
Definition Api_new (ctx : Ctx) (options : option Options) : Api :=
  {| api_routes := ∅;
     api_ctx := ctx;
     api_cors := match options with Some o => cors o | None => None end;
     api_options := options |}.

(** [this.routes.set(path, route)] *)
Definition set_route (path : string) (route : Route) (api : Api) : Api :=
  {| api_routes := <[path := route]> (api_routes api);
     api_ctx := api_ctx api;
     api_cors := api_cors api;
     api_options := api_options api |}.

Definition rpc (path : string) (cb : Context -> Completion JsValue) : Api -> Api :=
  set_route path (RouteRpc cb).
Definition sse (path : string) (cb : Context -> list Event) : Api -> Api :=
  set_route path (RouteSse cb).
Definition blob (path : string) (cb : Context -> Completion BlobData) : Api -> Api :=
  set_route path (RouteBlob cb).
Definition upload (path : string) (cb : Context -> Completion JsValue) : Api -> Api :=
  set_route path (RouteUpload cb).

(** *** Body acquisition *)

(** [options?.maxRequestSize ?? 1024 * 1024] *)
Definition maxSize (options : option Options) : Z :=
  match options with
  | Some o =>
      match maxRequestSize o with
      | Some n => n
      | None => 1024 * 1024
      end
  | None => 1024 * 1024
  end.

(** The outcome of the [for await (const chunk of req)] loop: it was
    left at a chunk that took [size] over the limit, the chunks after
    it unread, or it saw every chunk. *)
Inductive Acquired :=
| TooLarge (rest : list Buffer)
| Complete (text : Text).

Fixpoint readBody (limit : Z) (chunks : list Buffer) (size : Z) (text : Text)
  : Acquired :=
  match chunks with
  | [] => Complete text
  | chunk :: rest =>
      let size' := size + Buffer_length chunk in
      if limit <? size' then TooLarge rest
      else readBody limit rest size' (text ++ toString_utf8 chunk)
  end.

(** *** The request listener *)

(** What one request leaves behind: the response, the chunks of the
    request stream the dispatcher did not read, the handler calls made
    (with the context passed), and the SSE session if one was opened. *)
Record World := mkWorld {
  res : ServerResponse;
  unread : list Buffer;
  calls : list (Kind * Context);
  session : option Session
}.

(** [reqWithBody.body = body], once the stream has been read to its end. *)
Definition reqWithBody (req : IncomingMessage) (text : Text) : IncomingMessage :=
  mkIncomingMessage (req_method req) (req_url req) [] (Some text).

(** [req.url ?? ""] *)
Definition request_path (req : IncomingMessage) : string :=
  default EmptyString (req_url req).

Definition method_is (req : IncomingMessage) (m : string) : bool :=
  bool_decide (req_method req = Some m).

(** [res.statusCode = status; res.end(payload)] *)
Definition respond (status : Z) (payload : string) (r : ServerResponse)
  : ServerResponse :=
  end_ (Some (WText payload)) (set_statusCode status r).

Definition cors_headers (c : option CorsOptions) (r : ServerResponse)
  : ServerResponse :=
  match c with
  | Some o =>
      setHeader "Access-Control-Allow-Headers" "content-type"
        (setHeader "Access-Control-Allow-Credentials" "true"
           (setHeader "Access-Control-Allow-Origin" (origin o) r))
  | None => r
  end.

(** The body of the listener passed to [createServer], with its
    [try]/[catch]: every [Throw] of a handler or of [JSON.stringify]
    goes to [handleError]. *)
Definition dispatch (api : Api) (req : IncomingMessage) : World :=
  let r0 := cors_headers (api_cors api) fresh_response in
  if method_is req "OPTIONS" then
    mkWorld (end_ None (set_statusCode 204 r0)) (req_stream req) [] None
  else
    let path := request_path req in
    match api_routes api !! path with
    | None =>
        mkWorld (respond 404 (quoted "NOT_FOUND") r0) (req_stream req) [] None
    | Some (RouteUpload handler) =>
        if negb (method_is req "POST") then
          mkWorld (respond 405 (quoted "METHOD_NOT_ALLOWED") r0)
                  (req_stream req) [] None
        else
          let ctx := mkContext req (api_ctx api) in
          match handler ctx with
          | Normal _ =>
              mkWorld (respond 200 (quoted "OK") r0) (req_stream req)
                      [(KindUpload, ctx)] None
          | Throw err =>
              mkWorld (handleError err r0) (req_stream req)
                      [(KindUpload, ctx)] None
          end
    | Some route =>
        match readBody (maxSize (api_options api)) (req_stream req) 0 [] with
        | TooLarge rest =>
            mkWorld (respond 413 (quoted "PAYLOAD_TOO_LARGE") r0) rest [] None
        | Complete text =>
            let ctx := mkContext (reqWithBody req text) (api_ctx api) in
            match route with
            | RouteRpc handler =>
                if negb (method_is req "POST") then
                  mkWorld (respond 405 (quoted "METHOD_NOT_ALLOWED") r0) [] [] None
                else
                  match handler ctx with
                  | Normal (Some result) =>
                      let r1 := setHeader "content-type" "application/json" r0 in
                      match JSON_stringify result with
                      | JsonText t =>
                          mkWorld (end_ (Some (WText t)) r1) [] [(KindRpc, ctx)] None
                      | JsonUndefined =>
                          mkWorld (end_ None r1) [] [(KindRpc, ctx)] None
                      | JsonThrows err =>
                          mkWorld (handleError err r1) [] [(KindRpc, ctx)] None
                      end
                  | Normal None =>
                      mkWorld (end_ (Some (WText EmptyString)) r0) []
                              [(KindRpc, ctx)] None
                  | Throw err =>
                      mkWorld (handleError err r0) [] [(KindRpc, ctx)] None
                  end
            | RouteSse handler =>
                if negb (method_is req "GET") then
                  mkWorld (respond 405 (quoted "METHOD_NOT_ALLOWED") r0) [] [] None
                else
                  let r1 :=
                    setHeader "connection" "keep-alive"
                      (setHeader "cache-control" "no-cache"
                         (setHeader "content-type" "text/event-stream" r0)) in
                  let '(s, r2) := run (handler ctx) (new_session, r1) in
                  mkWorld r2 [] [(KindSse, ctx)] (Some s)
            | RouteBlob handler =>
                if negb (method_is req "GET") then
                  mkWorld (respond 405 (quoted "METHOD_NOT_ALLOWED") r0) [] [] None
                else
                  match handler ctx with
                  | Normal (BlobBuffer data) =>
                      mkWorld (end_ (Some (WBuffer data)) r0) []
                              [(KindBlob, ctx)] None
                  | Normal (BlobReadable source) =>
                      mkWorld (pipe source r0) [] [(KindBlob, ctx)] None
                  | Throw err =>
                      mkWorld (handleError err r0) [] [(KindBlob, ctx)] None
                  end
            | RouteUpload _ =>
                mkWorld r0 [] [] None
            end
        end
    end.

End Dispatcher.


Arguments stringify {Value} JSON_stringify v.
Arguments mkContext {Ctx} ctx_req ctx_app.
Arguments ctx_req {Ctx} c.
Arguments ctx_app {Ctx} c.
Arguments EvEmit {Value} event data.
Arguments EvOnCleanup {Value} fn.
Arguments EvClose {Value} side.
Arguments EvSettle {Value} rejected.
Arguments EvReturn {Value} c.
Arguments emit {Value} JSON_stringify event data st.
Arguments step {Value} JSON_stringify ev st.
Arguments run {Value} JSON_stringify events st.
Arguments RouteRpc {Ctx Value} handler.
Arguments RouteSse {Ctx Value} handler.
Arguments RouteBlob {Ctx Value} handler.
Arguments RouteUpload {Ctx Value} handler.
Arguments kind {Ctx Value} route.
Arguments mkApi {Ctx Value} api_routes api_ctx api_cors api_options.
Arguments api_routes {Ctx Value} a.
Arguments api_ctx {Ctx Value} a.
Arguments api_cors {Ctx Value} a.
Arguments api_options {Ctx Value} a.
Arguments Api_new {Ctx Value} ctx options.
Arguments set_route {Ctx Value} path route api.
Arguments rpc {Ctx Value} path cb api.
Arguments sse {Ctx Value} path cb api.
Arguments blob {Ctx Value} path cb api.
Arguments upload {Ctx Value} path cb api.
Arguments mkWorld {Ctx} res unread calls session.
Arguments res {Ctx} w.
Arguments unread {Ctx} w.
Arguments calls {Ctx} w.
Arguments session {Ctx} w.
Arguments dispatch {Ctx Value} JSON_stringify api req.

(** ** Vocabulary of the properties *)

(** The number of bytes of a request body, however it is chunked. *)
Definition total_size (chunks : list Buffer) : Z :=
  fold_right (fun chunk n => Buffer_length chunk + n) 0 chunks.

(** What the acquisition loop builds: the decodings of the chunks, one
    after the other. *)
Definition decode_chunks (chunks : list Buffer) : Text :=
  List.concat (List.map toString_utf8 chunks).

(** The bytes of a request body. *)
Definition payload (chunks : list Buffer) : Buffer := List.concat chunks.

(** The mapping of thrown values to status and code, in the words of the
    specification: a typed HTTP error keeps its own pair, a validation
    failure is a 400 with its own code, anything else is the internal
    error. *)
Definition spec_mapping (err : Thrown) : Z * string :=
  match err with
  | ThrownHttpError (HttpError_new status c) => (status, c)
  | ThrownValidationError v => (400, code v)
  | ThrownOther _ => (500, "INTERNAL_ERROR"%string)
  end.

(** The callbacks a schedule registers, in order. *)
Fixpoint registered {Value : Type} (events : list (Event Value)) : list Callback :=
  match events with
  | [] => []
  | EvOnCleanup fn :: rest => fn :: registered rest
  | _ :: rest => registered rest
  end.

Definition is_close {Value : Type} (ev : Event Value) : bool :=
  match ev with EvClose _ => true | _ => false end.

Definition is_settle {Value : Type} (ev : Event Value) : bool :=
  match ev with EvSettle _ => true | _ => false end.

Definition is_onCleanup {Value : Type} (ev : Event Value) : bool :=
  match ev with EvOnCleanup _ => true | _ => false end.

(** Schedules without a close event, without a registration, and made
    of settlements only. *)
Definition close_free {Value : Type} (events : list (Event Value)) : bool :=
  forallb (fun ev => negb (is_close ev)) events.

Definition registration_free {Value : Type} (events : list (Event Value)) : bool :=
  forallb (fun ev => negb (is_onCleanup ev)) events.

Definition all_settle {Value : Type} (events : list (Event Value)) : bool :=
  forallb is_settle events.

(** The session component of [step] and [run]. *)
Definition session_step {Value : Type} (ev : Event Value) (s : Session) : Session :=
  match ev with
  | EvOnCleanup fn => onCleanup fn s
  | EvClose _ => runCleanup s
  | EvSettle _ => settle s
  | EvEmit _ _ | EvReturn _ => s
  end.

Definition session_run {Value : Type} (events : list (Event Value)) (s : Session)
  : Session :=
  fold_left (fun s ev => session_step ev s) events s.

Definition throws (fn : Callback) : bool :=
  match cb_behaviour fn with ThrowsSync => true | Awaited => false end.

(** The route kinds whose requests go through body acquisition, and the
    method each kind of route asks for. *)
Definition acquires_body (k : Kind) : bool :=
  match k with KindUpload => false | _ => true end.

Definition required_method (k : Kind) : string :=
  match k with
  | KindRpc | KindUpload => "POST"
  | KindSse | KindBlob => "GET"
  end.

(** The context the dispatcher calls the handler of a route with: the
    untouched request for an upload, the request with its decoded body
    attached for the other kinds. *)
Definition handler_context {Ctx Value : Type} (api : Api Ctx Value)
    (req : IncomingMessage) (route : Route Ctx Value) : Context Ctx :=
  match route with
  | RouteUpload _ => mkContext req (api_ctx api)
  | _ => mkContext (reqWithBody req (decode_chunks (req_stream req))) (api_ctx api)
  end.

(** What the handler of an RPC, Blob or Upload route throws when it is
    called with [ctx], if it throws. *)
Definition thrown_by {Ctx Value : Type} (route : Route Ctx Value)
    (ctx : Context Ctx) : option Thrown :=
  match route with
  | RouteRpc handler =>
      match handler ctx with Throw err => Some err | Normal _ => None end
  | RouteBlob handler =>
      match handler ctx with Throw err => Some err | Normal _ => None end
  | RouteUpload handler =>
      match handler ctx with Throw err => Some err | Normal _ => None end
  | RouteSse _ => None
  end.

(** The two strings of one server-sent event. *)
Definition frame (event text : string) : list Written :=
  [WText ("event: " +:+ event +:+ LF); WText ("data: " +:+ text +:+ LF +:+ LF)].

(** An emission together with the text its data serialises to. *)
Definition emission_event {Value : Type} (e : string * option Value * string)
  : Event Value :=
  EvEmit (fst (fst e)) (snd (fst e)).

Definition emission_frame {Value : Type} (e : string * option Value * string)
  : list Written :=
  frame (fst (fst e)) (snd e).

Definition is_throw {Value : Type} (ev : Event Value) : bool :=
  match ev with EvReturn (Throw _) => true | _ => false end.

Definition throw_free {Value : Type} (events : list (Event Value)) : bool :=
  forallb (fun ev => negb (is_throw ev)) events.

(** The calls made so far are the first registrations, in order; an open
    session has made none and has no loop suspended. *)
Definition ordered (s : Session) : Prop :=
  (closed s = false -> ran s = [] /\ cursor s = None) /\
  exists k : nat,
    (k <= length (cleanups s))%nat /\
    ran s = firstn k (cleanups s) /\
    forall j, cursor s = Some j -> j = k.

(** The names of the headers the dispatcher sets for the content. *)
Definition content_header (name : string) : bool :=
  bool_decide (name = "content-type"%string) ||
  bool_decide (name = "cache-control"%string) ||
  bool_decide (name = "connection"%string).

(** The response an SSE handler starts from: the CORS headers and the
    three headers of an event stream. *)
Definition sse_response {Ctx Value : Type} (api : Api Ctx Value) : ServerResponse :=
  setHeader "connection" "keep-alive"
    (setHeader "cache-control" "no-cache"
       (setHeader "content-type" "text/event-stream"
          (cors_headers (api_cors api) fresh_response))).

(** ** A small application, for the examples *)

Module Demo.

(** Three values a handler may return: the object [{ a: 1 }], a
    function, and an object that contains itself. *)
Inductive Value := ObjectA1 | AFunction | Cyclic.

Definition JSON_stringify (v : Value) : Stringified :=
  match v with
  | ObjectA1 => JsonText ("{" +:+ quoted "a" +:+ ":1}")
  | AFunction => JsonUndefined
  | Cyclic => JsonThrows (ThrownOther "TypeError: Converting circular structure to JSON")
  end.

Definition first : Callback := mkCallback 1 Awaited.
Definition second : Callback := mkCallback 2 Awaited.

(** The handler registers two cleanups, emits once and returns; later
    the client goes away and the awaited cleanups settle. *)
Definition handler_events : list (Event Value) :=
  [EvOnCleanup first; EvOnCleanup second; EvEmit "tick" (Some ObjectA1);
   EvReturn (Normal tt)].

Definition events_handler (_ : Context string) : list (Event Value) :=
  handler_events.

Definition settlements : list (Event Value) := [EvSettle false; EvSettle true].

Definition rpc_handler (_ : Context string) : Completion (JsValue Value) :=
  Normal (Some ObjectA1).

Definition void_handler (_ : Context string) : Completion (JsValue Value) :=
  Normal None.

Definition file_handler (_ : Context string) : Completion BlobData :=
  Normal (BlobBuffer []).

Definition api : Api string Value :=
  upload "/upload" void_handler
    (blob "/file" file_handler
       (sse "/events" events_handler
          (rpc "/void" void_handler
             (rpc "/rpc" rpc_handler
                (Api_new "from-context" None))))).

(** The RPC route behind a four-byte limit and a CORS origin. *)
Definition strict_api : Api string Value :=
  rpc "/rpc" rpc_handler
    (Api_new "from-context"
       (Some (mkOptions (Some 4) (Some (mkCorsOptions "https://example.org"))))).

Definition request (m path : string) (chunks : list Buffer) : IncomingMessage :=
  mkIncomingMessage (Some m) (Some path) chunks None.

(** The bytes of [hello], and of the two-byte encoding of U+00E9. *)
Definition hello : Buffer := [Byte.x68; Byte.x65; Byte.x6c; Byte.x6c; Byte.x6f].
Definition e_acute : Buffer := [Byte.xc3; Byte.xa9].

Definition post_rpc : IncomingMessage := request "POST" "/rpc" [hello].
Definition post_void : IncomingMessage := request "POST" "/void" [].
Definition put_rpc : IncomingMessage := request "PUT" "/rpc" [hello].
Definition post_file : IncomingMessage := request "POST" "/file" [].
Definition get_events : IncomingMessage := request "GET" "/events" [].
Definition get_unknown : IncomingMessage := request "GET" "/does-not-exist" [].
Definition options_unknown : IncomingMessage := request "OPTIONS" "/does-not-exist" [].
Definition options_rpc : IncomingMessage := request "OPTIONS" "/rpc" [hello].
Definition post_split : IncomingMessage :=
  request "POST" "/rpc" [[Byte.xc3]; [Byte.xa9]].
Definition post_whole : IncomingMessage := request "POST" "/rpc" [e_acute].

(** A session after its close event, both cleanups called. *)
Definition closed_session : Session :=
  {| cleanups := [first; second]; closed := true; cursor := None;
     ran := [first; second] |}.

(** A cleanup that throws when it is called. *)
Definition failing : Callback := mkCallback 3 ThrowsSync.

(** Handlers that throw, a blob handler that streams, a handler whose
    result does not serialise. *)
Definition forbidden_handler (_ : Context string) : Completion (JsValue Value) :=
  Throw (ThrownHttpError ForbiddenError).

Definition stream_handler (_ : Context string) : Completion BlobData :=
  Normal (BlobReadable [hello; e_acute]).

Definition cyclic_handler (_ : Context string) : Completion (JsValue Value) :=
  Normal (Some Cyclic).

Definition api2 : Api string Value :=
  rpc "/cyclic" cyclic_handler
    (blob "/stream" stream_handler
       (upload "/locked" forbidden_handler
          (Api_new "from-context"
             (Some (mkOptions None (Some (mkCorsOptions "https://example.org"))))))).

Definition post_upload : IncomingMessage := request "POST" "/upload" [hello; e_acute].
Definition get_upload : IncomingMessage := request "GET" "/upload" [hello].
Definition post_locked : IncomingMessage := request "POST" "/locked" [hello].
Definition get_stream : IncomingMessage := request "GET" "/stream" [].
Definition post_events : IncomingMessage := request "POST" "/events" [].
Definition post_cyclic : IncomingMessage := request "POST" "/cyclic" [].
Definition post_hello_split : IncomingMessage :=
  request "POST" "/rpc" [[Byte.x68; Byte.x65]; [Byte.x6c; Byte.x6c; Byte.x6f]].

Definition ticks : list (string * option Value * string) :=
  [("tick"%string, Some ObjectA1, "{" +:+ quoted "a" +:+ ":1}");
   ("tock"%string, Some ObjectA1, "{" +:+ quoted "a" +:+ ":1}")].

(** An SSE handler that emits one event and then throws. *)
Definition failing_events : list (Event Value) :=
  [EvEmit "tick" (Some ObjectA1); EvReturn (Throw (ThrownHttpError ForbiddenError))].

Definition failing_events_handler (_ : Context string) : list (Event Value) :=
  failing_events.

Definition api3 : Api string Value :=
  sse "/failing" failing_events_handler (Api_new "from-context" None).

Definition get_failing : IncomingMessage := request "GET" "/failing" [].

End Demo.

(** * Properties *)

(** ** The response object and the error mapping *)

Lemma respond_status status text r :
  res_statusCode (respond status text r) = status.
Proof. reflexivity. Qed.

Lemma respond_body status text r :
  res_body (respond status text r) = res_body r ++ [WText text].
Proof. reflexivity. Qed.

Lemma cors_headers_status c r :
  res_statusCode (cors_headers c r) = res_statusCode r.
Proof. destruct c; reflexivity. Qed.

Lemma cors_headers_body c r : res_body (cors_headers c r) = res_body r.
Proof. destruct c; reflexivity. Qed.

Lemma cors_headers_no_content_type c :
  res_headers (cors_headers c fresh_response) !! "content-type"%string = None.
Proof.
  destruct c as [o|]; simpl.
  - rewrite !lookup_insert_ne by discriminate. apply lookup_empty.
  - apply lookup_empty.
Qed.

Lemma handleError_respond err r :
  handleError err r =
  respond (fst (spec_mapping err)) (quoted (snd (spec_mapping err))) r.
Proof. destruct err as [[status c]|v|d]; reflexivity. Qed.

(** Whatever is thrown, [handleError] answers with the status and
    the code the specification assigns to it: a typed HTTP error keeps
    its own status and code, a validation failure is a 400 with its own
    code, any other value is a 500 INTERNAL_ERROR. What it writes is the
    quoted code and nothing else: the body grows by that one string, the
    headers are untouched, the response is ended. *)
Theorem handleError_total_mapping (err : Thrown) (r : ServerResponse) :
  let r' := handleError err r in
  let '(status, c) := spec_mapping err in
  res_statusCode r' = status /\
  res_body r' = res_body r ++ [WText (quoted c)] /\
  res_headers r' = res_headers r /\
  res_finished r' = true.
Proof.
  cbv zeta. rewrite handleError_respond.
  destruct (spec_mapping err) as [status c]. split_and!; reflexivity.
Qed.

Example forbidden_is_403 :
  handleError (ThrownHttpError ForbiddenError) fresh_response =
  respond 403 (quoted "FORBIDDEN") fresh_response.
Proof. reflexivity. Qed.

(** ** Body acquisition *)

Lemma Buffer_length_nonneg chunk : 0 <= Buffer_length chunk.
Proof. unfold Buffer_length. lia. Qed.

Lemma total_size_nonneg chunks : 0 <= total_size chunks.
Proof.
  induction chunks as [|c chunks IH]; simpl; [lia|].
  pose proof (Buffer_length_nonneg c). lia.
Qed.

Lemma total_size_app pre post :
  total_size (pre ++ post) = total_size pre + total_size post.
Proof. induction pre as [|c pre IH]; simpl; lia. Qed.

Lemma total_size_payload chunks :
  total_size chunks = Buffer_length (payload chunks).
Proof.
  unfold payload, Buffer_length.
  induction chunks as [|c chunks IH]; simpl; [reflexivity|].
  rewrite IH. unfold Buffer_length. rewrite List.length_app. lia.
Qed.

Lemma maxSize_default c :
  maxSize None = 1048576 /\ maxSize (Some (mkOptions None c)) = 1048576.
Proof. split; reflexivity. Qed.

(** A body within the limit is read to its end. *)
Lemma readBody_within limit chunks size text :
  size + total_size chunks <= limit ->
  readBody limit chunks size text = Complete (text ++ decode_chunks chunks).
Proof.
  revert size text.
  induction chunks as [|c chunks IH]; intros size text Hle; simpl in *.
  - unfold decode_chunks. simpl. by rewrite List.app_nil_r.
  - pose proof (total_size_nonneg chunks).
    destruct (limit <? size + Buffer_length c) eqn:E.
    + apply Z.ltb_lt in E. lia.
    + rewrite IH by lia. unfold decode_chunks. simpl.
      by rewrite <- List.app_assoc.
Qed.

(** A body over the limit stops the loop at the first chunk that takes
    the running size over it. *)
Lemma readBody_overflow limit chunks size text :
  size <= limit -> limit < size + total_size chunks ->
  exists pre chunk post,
    chunks = pre ++ chunk :: post /\
    size + total_size pre <= limit /\
    limit < size + total_size pre + Buffer_length chunk /\
    readBody limit chunks size text = TooLarge post.
Proof.
  revert size text.
  induction chunks as [|c chunks IH]; intros size text Hle Hlt; simpl in *.
  - lia.
  - destruct (limit <? size + Buffer_length c) eqn:E.
    + apply Z.ltb_lt in E. exists [], c, chunks. simpl.
      split_and!; [reflexivity | lia | lia | reflexivity].
    + apply Z.ltb_ge in E.
      destruct (IH (size + Buffer_length c) (text ++ toString_utf8 c))
        as (pre & chunk & post & -> & H1 & H2 & H3); [lia | lia |].
      exists (c :: pre), chunk, post. simpl.
      split_and!; [reflexivity | lia | lia | exact H3].
Qed.

(** ** UTF-8 decoding of a chunked body *)

Lemma feed_app st a b :
  Utf8.feed st (a ++ b) =
  let '(st1, out1) := Utf8.feed st a in
  let '(st2, out2) := Utf8.feed st1 b in
  (st2, out1 ++ out2).
Proof.
  revert st. induction a as [|x a IH]; intros st; simpl.
  - destruct (Utf8.feed st b); reflexivity.
  - destruct (Utf8.step st x) as [st1 out1]. rewrite IH.
    destruct (Utf8.feed st1 a) as [st2 out2].
    destruct (Utf8.feed st2 b) as [st3 out3].
    by rewrite List.app_assoc.
Qed.

(** Decoding distributes over a cut that falls between two characters. *)
Lemma decode_app_complete a b :
  Utf8.complete a -> Utf8.decode (a ++ b) = Utf8.decode a ++ Utf8.decode b.
Proof.
  unfold Utf8.complete, Utf8.decode. intros Ha. rewrite feed_app.
  destruct (Utf8.feed Utf8.Idle a) as [st1 out1]. simpl in Ha. subst st1.
  destruct (Utf8.feed Utf8.Idle b) as [st2 out2]. simpl.
  by rewrite List.app_nil_r, List.app_assoc.
Qed.

Example decode_two_byte : toString_utf8 [Byte.xc3; Byte.xa9] = [0xE9].
Proof. reflexivity. Qed.

Example decode_three_byte : toString_utf8 [Byte.xe2; Byte.x82; Byte.xac] = [0x20AC].
Proof. reflexivity. Qed.

Example decode_truncated : toString_utf8 [Byte.xe2; Byte.x82] = [Utf8.REPLACEMENT].
Proof. reflexivity. Qed.

(** A chunk of ASCII bytes leaves no sequence open. *)
Lemma ascii_chunk_complete (chunk : Buffer) :
  Forall (fun b => byte_value b <= 0x7F) chunk ->
  Utf8.complete (List.map byte_value chunk).
Proof.
  unfold Utf8.complete.
  induction 1 as [|b chunk Hb _ IH]; simpl; [reflexivity|].
  unfold Utf8.lead. apply Z.leb_le in Hb. rewrite Hb.
  destruct (Utf8.feed Utf8.Idle (List.map byte_value chunk)) as [st out].
  exact IH.
Qed.

(** When no chunk ends inside a multi-byte sequence, the text the loop
    builds is the decoding of the whole payload. *)
Lemma decode_chunks_on_boundaries chunks :
  Forall (fun chunk => Utf8.complete (List.map byte_value chunk)) chunks ->
  decode_chunks chunks = toString_utf8 (payload chunks).
Proof.
  unfold decode_chunks, payload, toString_utf8.
  induction 1 as [|c chunks Hc _ IH]; simpl; [reflexivity|].
  by rewrite List.map_app, decode_app_complete, IH.
Qed.

(** ** The dispatcher *)

Section DispatcherProperties.

Variable Ctx : Type.
Variable Value : Type.
Variable JSON_stringify : Value -> Stringified.

Implicit Types (api : Api Ctx Value) (req : IncomingMessage) (route : Route Ctx Value).

Lemma method_is_true req m : req_method req = Some m -> method_is req m = true.
Proof. intros H. unfold method_is. by apply bool_decide_eq_true. Qed.

Lemma method_is_false req m : req_method req <> Some m -> method_is req m = false.
Proof. intros H. unfold method_is. by apply bool_decide_eq_false. Qed.

(** C10. A request with method OPTIONS is answered 204 with an empty
    body, whatever the CORS configuration and whatever the route table
    holds: the answer does not depend on the routes, no handler is
    called and nothing is read from the request stream. *)
Theorem options_short_circuit (api : Api Ctx Value) (req : IncomingMessage) :
  req_method req = Some "OPTIONS"%string ->
  let w := dispatch JSON_stringify api req in
  res_statusCode (res w) = 204 /\
  res_body (res w) = [] /\
  res_finished (res w) = true /\
  calls w = [] /\
  session w = None /\
  unread w = req_stream req /\
  forall routes',
    dispatch JSON_stringify
      (mkApi routes' (api_ctx api) (api_cors api) (api_options api)) req = w.
Proof.
  intros Hm. unfold dispatch. simpl.
  rewrite (method_is_true _ _ Hm). simpl.
  rewrite cors_headers_body. split_and!; try reflexivity.
Qed.

(** C3, as the dispatcher has it. A request whose method is not OPTIONS
    and whose path has no registered route is answered 404 with body
    "NOT_FOUND"; no handler is called and nothing is read. *)
Theorem unregistered_path_not_found (api : Api Ctx Value) (req : IncomingMessage) :
  req_method req <> Some "OPTIONS"%string ->
  api_routes api !! request_path req = None ->
  let w := dispatch JSON_stringify api req in
  res_statusCode (res w) = 404 /\
  res_body (res w) = [WText (quoted "NOT_FOUND")] /\
  res_finished (res w) = true /\
  calls w = [] /\
  unread w = req_stream req.
Proof.
  intros Hm Hr. unfold dispatch.
  rewrite (method_is_false _ _ Hm), Hr. simpl.
  rewrite cors_headers_body. split_and!; reflexivity.
Qed.

(** C1, as the dispatcher has it. On a registered RPC or Blob route, a
    request whose method is neither OPTIONS nor the one the kind asks
    for, and whose body fits the limit, is answered 405 with body
    "METHOD_NOT_ALLOWED" and the handler is not called; the dispatcher
    has read the whole body by then. *)
Theorem method_mismatch_after_body (api : Api Ctx Value) (req : IncomingMessage)
    (route : Route Ctx Value) :
  api_routes api !! request_path req = Some route ->
  kind route = KindRpc \/ kind route = KindBlob ->
  req_method req <> Some "OPTIONS"%string ->
  req_method req <> Some (required_method (kind route)) ->
  total_size (req_stream req) <= maxSize (api_options api) ->
  let w := dispatch JSON_stringify api req in
  res_statusCode (res w) = 405 /\
  res_body (res w) = [WText (quoted "METHOD_NOT_ALLOWED")] /\
  res_finished (res w) = true /\
  calls w = [] /\
  unread w = [].
Proof.
  intros Hr Hk Ho Hm Hsize. unfold dispatch.
  rewrite (method_is_false _ _ Ho), Hr.
  rewrite (readBody_within _ _ 0 []) by lia.
  destruct route as [h|h|h|h]; simpl in Hk, Hm; destruct Hk as [Hk|Hk];
    try discriminate Hk;
    rewrite (method_is_false _ _ Hm); simpl;
    rewrite cors_headers_body; split_and!; reflexivity.
Qed.

(** C5. On a route that goes through body acquisition, a body larger
    than the limit is answered 413 with body "PAYLOAD_TOO_LARGE"; no
    handler is called, and the loop stops at the first chunk that takes
    the running size over the limit: the chunks after it stay unread.
    Without a configured value the limit is 1,048,576 bytes. *)
Theorem oversized_body_rejected (api : Api Ctx Value) (req : IncomingMessage)
    (route : Route Ctx Value) :
  api_routes api !! request_path req = Some route ->
  acquires_body (kind route) = true ->
  req_method req <> Some "OPTIONS"%string ->
  0 <= maxSize (api_options api) ->
  maxSize (api_options api) < total_size (req_stream req) ->
  let w := dispatch JSON_stringify api req in
  res_statusCode (res w) = 413 /\
  res_body (res w) = [WText (quoted "PAYLOAD_TOO_LARGE")] /\
  res_finished (res w) = true /\
  calls w = [] /\
  (exists pre chunk,
     req_stream req = pre ++ chunk :: unread w /\
     total_size pre <= maxSize (api_options api) /\
     maxSize (api_options api) < total_size pre + Buffer_length chunk) /\
  maxSize None = 1048576.
Proof.
  intros Hr Hk Ho Hlim Hsize. unfold dispatch.
  rewrite (method_is_false _ _ Ho), Hr.
  destruct (readBody_overflow (maxSize (api_options api)) (req_stream req) 0 [])
    as (pre & chunk & post & Hsplit & H1 & H2 & ->); [lia | lia |].
  destruct route as [h|h|h|h]; try discriminate Hk; simpl;
    rewrite cors_headers_body;
    (split_and!; try reflexivity; exists pre, chunk; split_and!; [exact Hsplit | lia | lia]).
Qed.

(** C8. An RPC handler that returns [undefined] gives a response with an
    empty body and no content-type header; one that returns a value
    whose JSON serialisation is [t] gives the body [t] and the header
    content-type: application/json. *)
Theorem rpc_result_written (api : Api Ctx Value) (req : IncomingMessage)
    (handler : Context Ctx -> Completion (JsValue Value)) (result : JsValue Value) :
  api_routes api !! request_path req = Some (RouteRpc handler) ->
  req_method req = Some "POST"%string ->
  total_size (req_stream req) <= maxSize (api_options api) ->
  handler (mkContext (reqWithBody req (decode_chunks (req_stream req))) (api_ctx api))
    = Normal result ->
  let w := dispatch JSON_stringify api req in
  res_finished (res w) = true /\
  match result with
  | None =>
      body_text (res_body (res w)) = Some EmptyString /\
      res_headers (res w) !! "content-type"%string = None
  | Some v =>
      forall t, JSON_stringify v = JsonText t ->
        res_body (res w) = [WText t] /\
        res_headers (res w) !! "content-type"%string = Some "application/json"%string
  end.
Proof.
  intros Hr Hm Hsize Hh. unfold dispatch.
  assert (Ho : req_method req <> Some "OPTIONS"%string) by (rewrite Hm; discriminate).
  rewrite (method_is_false _ _ Ho), Hr.
  rewrite (readBody_within _ _ 0 []) by lia.
  rewrite List.app_nil_l. cbv beta iota zeta.
  rewrite (method_is_true _ _ Hm), Hh. simpl.
  destruct result as [v|].
  - destruct (JSON_stringify v) as [t'| |e] eqn:E.
    + split; [reflexivity|]. intros t [= ->]. simpl.
      rewrite cors_headers_body. split; [reflexivity|]. apply lookup_insert_eq.
    + split; [reflexivity|]. intros t [=].
    + split; [by rewrite handleError_respond|]. intros t [=].
  - simpl. rewrite cors_headers_body. split_and!; try reflexivity.
    apply cors_headers_no_content_type.
Qed.

(** A throw of an RPC handler goes to [handleError], on a response that
    holds nothing but the CORS headers: the body is the quoted code. *)
Lemma rpc_handler_throw api req handler err :
  api_routes api !! request_path req = Some (RouteRpc handler) ->
  req_method req = Some "POST"%string ->
  total_size (req_stream req) <= maxSize (api_options api) ->
  handler (mkContext (reqWithBody req (decode_chunks (req_stream req))) (api_ctx api))
    = Throw err ->
  let w := dispatch JSON_stringify api req in
  res w = handleError err (cors_headers (api_cors api) fresh_response) /\
  res_statusCode (res w) = fst (spec_mapping err) /\
  res_body (res w) = [WText (quoted (snd (spec_mapping err)))].
Proof.
  intros Hr Hm Hsize Hh. unfold dispatch.
  assert (Ho : req_method req <> Some "OPTIONS"%string) by (rewrite Hm; discriminate).
  rewrite (method_is_false _ _ Ho), Hr.
  rewrite (readBody_within _ _ 0 []) by lia.
  rewrite List.app_nil_l. cbv beta iota zeta.
  rewrite (method_is_true _ _ Hm), Hh. simpl.
  rewrite handleError_respond, respond_body, cors_headers_body.
  split_and!; reflexivity.
Qed.

(** What an RPC handler is called with: the request with the chunk-wise
    decoding of its body attached, and the application context. *)
Lemma rpc_handler_context api req handler :
  api_routes api !! request_path req = Some (RouteRpc handler) ->
  req_method req = Some "POST"%string ->
  total_size (req_stream req) <= maxSize (api_options api) ->
  calls (dispatch JSON_stringify api req) =
  [(KindRpc, mkContext (reqWithBody req (decode_chunks (req_stream req))) (api_ctx api))].
Proof.
  intros Hr Hm Hsize. unfold dispatch.
  assert (Ho : req_method req <> Some "OPTIONS"%string) by (rewrite Hm; discriminate).
  rewrite (method_is_false _ _ Ho), Hr.
  rewrite (readBody_within _ _ 0 []) by lia.
  rewrite List.app_nil_l. cbv beta iota zeta.
  rewrite (method_is_true _ _ Hm). simpl.
  destruct (handler _) as [[v|]|e]; [destruct (JSON_stringify v)|..]; reflexivity.
Qed.

End DispatcherProperties.

(** C7. A body of two bytes, the UTF-8 encoding of U+00E9, well within
    the limit, posted to an RPC route in two chunks of one byte: the
    handler is called once, and the [body] it is given is two
    replacement characters, not the decoding of the two bytes sent. *)
Theorem split_character_is_mangled :
  payload (req_stream Demo.post_split) = Demo.e_acute /\
  total_size (req_stream Demo.post_split) <= maxSize (api_options Demo.api) /\
  List.map (fun call => req_body (ctx_req (snd call)))
    (calls (dispatch Demo.JSON_stringify Demo.api Demo.post_split))
  = [Some [0xFFFD; 0xFFFD]] /\
  toString_utf8 (payload (req_stream Demo.post_split)) = [0xE9] /\
  List.map (fun call => req_body (ctx_req (snd call)))
    (calls (dispatch Demo.JSON_stringify Demo.api Demo.post_whole))
  = [Some [0xE9]].
Proof. vm_compute. split_and!; try reflexivity. discriminate. Qed.

(** ** The SSE session *)

Section SessionProperties.

Variable Value : Type.
Variable JSON_stringify : Value -> Stringified.

Implicit Types (s : Session) (r : ServerResponse) (ev : Event Value)
  (fn : Callback).

Local Open Scope nat_scope.

Lemma run_cons ev (t : list (Event Value)) st :
  run JSON_stringify (ev :: t) st = run JSON_stringify t (step JSON_stringify ev st).
Proof. reflexivity. Qed.

Lemma run_app (t1 t2 : list (Event Value)) st :
  run JSON_stringify (t1 ++ t2) st = run JSON_stringify t2 (run JSON_stringify t1 st).
Proof. unfold run. apply fold_left_app. Qed.

(** [emit] never touches the session variables. *)
Lemma emit_session event data s r :
  fst (snd (emit JSON_stringify event data (s, r))) = s.
Proof.
  unfold emit. destruct (closed s); [reflexivity|].
  destruct (stringify JSON_stringify data); reflexivity.
Qed.

Lemma runCleanup_closed s : closed s = true -> runCleanup s = s.
Proof. intros H. unfold runCleanup. by rewrite H. Qed.

Lemma runCleanup_closes s : closed (runCleanup s) = true.
Proof.
  unfold runCleanup. destruct (closed s) eqn:E; [exact E|].
  unfold loop_from. simpl. destruct (drain _ _ _). reflexivity.
Qed.

(** One run of the loop: it calls the callbacks [taken], in order, and
    either suspends after the last of them or reaches the end. *)
Lemma drain_split (rest : list Callback) i log :
  exists taken left,
    rest = taken ++ left /\
    snd (drain rest i log) = log ++ taken /\
    (fst (drain rest i log) = Some (i + length taken) /\ taken <> [] \/
     fst (drain rest i log) = None /\ left = []).
Proof.
  revert i log. induction rest as [|fn rest IH]; intros i log; simpl.
  - exists [], []. split_and!; [reflexivity | by rewrite List.app_nil_r | by right].
  - destruct (cb_behaviour fn).
    + destruct (IH (S i) (log ++ [fn])) as (taken & left & -> & Hlog & Hcur).
      exists (fn :: taken), left. split_and!.
      * reflexivity.
      * rewrite Hlog. by rewrite <- List.app_assoc.
      * destruct Hcur as [[Hc Hne]|[Hc Hl]]; [left|right].
        -- split; [|discriminate]. rewrite Hc. f_equal. simpl. lia.
        -- by split.
    + exists [fn], rest. split_and!; [reflexivity | reflexivity |].
      left. split; [|discriminate]. simpl. f_equal. lia.
Qed.

Lemma drain_firstn (cs : list Callback) i :
  i <= length cs ->
  exists k,
    i <= k <= length cs /\
    snd (drain (skipn i cs) i (firstn i cs)) = firstn k cs /\
    (fst (drain (skipn i cs) i (firstn i cs)) = Some k /\ i < k \/
     fst (drain (skipn i cs) i (firstn i cs)) = None /\ k = length cs).
Proof.
  intros Hi.
  destruct (drain_split (skipn i cs) i (firstn i cs))
    as (taken & left & Hsplit & Hlog & Hcur).
  assert (Hcs : cs = (firstn i cs ++ taken) ++ left).
  { rewrite <- List.app_assoc, <- Hsplit. symmetry. apply List.firstn_skipn. }
  assert (Hlen : length (firstn i cs ++ taken) = i + length taken).
  { rewrite List.length_app, List.firstn_length_le by exact Hi. reflexivity. }
  rewrite Hlog. clear Hlog Hsplit.
  remember (firstn i cs ++ taken) as called eqn:Hcalled. clear Hcalled.
  assert (Htotal : length cs = i + length taken + length left).
  { rewrite Hcs, List.length_app, Hlen. reflexivity. }
  exists (i + length taken). split_and!.
  - lia.
  - lia.
  - rewrite <- Hlen, Hcs.
    rewrite List.firstn_app, Nat.sub_diag, List.firstn_all. simpl.
    by rewrite List.app_nil_r.
  - destruct Hcur as [[Hc Hne]|[Hc Hl]]; [left|right].
    + split; [exact Hc|]. destruct taken; [congruence | simpl; lia].
    + split; [exact Hc|]. subst left. simpl in Htotal. lia.
Qed.

Lemma step_session ev st :
  fst (step JSON_stringify ev st) = session_step ev (fst st).
Proof.
  destruct st as [s r]. destruct ev as [event data|fn|side|b|[u|e]]; try reflexivity.
  apply emit_session.
Qed.

Lemma run_session (t : list (Event Value)) st :
  fst (run JSON_stringify t st) = session_run t (fst st).
Proof.
  revert st. induction t as [|ev t IH]; intros st; [reflexivity|].
  rewrite run_cons, IH, step_session. reflexivity.
Qed.

Lemma session_run_app (t1 t2 : list (Event Value)) s :
  session_run (t1 ++ t2) s = session_run t2 (session_run t1 s).
Proof. unfold session_run. apply fold_left_app. Qed.

(** Until a close event comes, the session stays open and no callback is
    called: registrations pile up, and neither [emit] nor the return of
    the handler changes the session. *)
Lemma open_session_run (pre : list (Event Value)) s :
  close_free pre = true ->
  closed s = false -> cursor s = None -> ran s = [] ->
  session_run pre s =
  {| cleanups := cleanups s ++ registered pre; closed := false;
     cursor := None; ran := [] |}.
Proof.
  revert s. induction pre as [|ev pre IH]; intros s Hfree Hcl Hcur Hran.
  - destruct s as [cs cl cur log]. simpl in *. subst.
    by rewrite List.app_nil_r.
  - apply andb_prop in Hfree as [Hev Hfree].
    change (session_run (ev :: pre) s) with (session_run pre (session_step ev s)).
    destruct ev as [event data|fn|side|b|c]; simpl in Hev; try discriminate Hev;
      simpl session_step.
    + by apply IH.
    + rewrite IH by done. simpl. by rewrite <- List.app_assoc.
    + assert (Hs : settle s = s) by (unfold settle; by rewrite Hcur).
      rewrite Hs. by apply IH.
    + by apply IH.
Qed.

(** A settlement resumes the loop: it ends, or it suspends further on. *)
Lemma settle_progress s k :
  closed s = true -> cursor s = Some k ->
  k <= length (cleanups s) -> ran s = firstn k (cleanups s) ->
  cleanups (settle s) = cleanups s /\
  closed (settle s) = true /\
  (cursor (settle s) = None /\ ran (settle s) = cleanups s \/
   exists k', cursor (settle s) = Some k' /\ k < k' <= length (cleanups s) /\
              ran (settle s) = firstn k' (cleanups s)).
Proof.
  destruct s as [cs cl cur log]. simpl. intros -> -> Hk ->.
  unfold settle, loop_from. simpl.
  destruct (drain_firstn cs k Hk) as (k' & Hk' & Hlog & Hcur).
  destruct (drain (skipn k cs) k (firstn k cs)) as [cur' log']. simpl in *.
  split_and!; try reflexivity.
  destruct Hcur as [[-> Hlt]|[-> ->]].
  - right. exists k'. split_and!; [reflexivity | lia | lia | exact Hlog].
  - left. split; [reflexivity|]. rewrite Hlog. apply List.firstn_all.
Qed.

(** Once every awaited callback has settled, the loop has called them
    all. *)
Lemma settlements_drain (t : list (Event Value)) :
  forall s, all_settle t = true -> closed s = true ->
  (cursor s = None /\ ran s = cleanups s \/
   exists k, cursor s = Some k /\ k <= length (cleanups s) /\
             ran s = firstn k (cleanups s) /\
             length (cleanups s) <= k + length t) ->
  closed (session_run t s) = true /\
  ran (session_run t s) = cleanups s.
Proof.
  induction t as [|ev t IH]; intros s Hall Hcl Hinv.
  - simpl. split; [exact Hcl|].
    destruct Hinv as [[_ Hran]|(k & _ & Hk & Hran & Hlen)]; [exact Hran|].
    simpl in Hlen. rewrite Hran. apply List.firstn_all2. lia.
  - apply andb_prop in Hall as [Hev Hall].
    destruct ev as [event data|fn|side|b|c]; simpl in Hev; try discriminate Hev.
    change (session_run (EvSettle b :: t) s) with (session_run t (settle s)).
    destruct Hinv as [[Hcur Hran]|(k & Hcur & Hk & Hran & Hlen)].
    + assert (Hs : settle s = s) by (unfold settle; by rewrite Hcur).
      rewrite Hs. apply IH; [exact Hall | exact Hcl | by left].
    + destruct (settle_progress s k Hcl Hcur Hk Hran) as (Hcs & Hcl' & Hnext).
      rewrite <- Hcs. apply IH; [exact Hall | exact Hcl' |]. rewrite Hcs.
      destruct Hnext as [[Hc Hr]|(k' & Hc & Hk' & Hr)]; [by left|].
      right. exists k'. split_and!; [exact Hc | lia | exact Hr |].
      simpl in Hlen. lia.
Qed.

(** The first close event starts the loop. *)
Lemma runCleanup_open s :
  closed s = false -> ran s = [] ->
  cleanups (runCleanup s) = cleanups s /\
  closed (runCleanup s) = true /\
  (cursor (runCleanup s) = None /\ ran (runCleanup s) = cleanups s \/
   exists k, cursor (runCleanup s) = Some k /\ 0 < k <= length (cleanups s) /\
             ran (runCleanup s) = firstn k (cleanups s)).
Proof.
  destruct s as [cs cl cur log]. simpl. intros -> ->.
  unfold runCleanup, loop_from. simpl.
  destruct (drain_firstn cs 0 (Nat.le_0_l _)) as (k & Hk & Hlog & Hcur).
  change (skipn 0 cs) with cs in *.
  change (firstn 0 cs) with (@nil Callback) in *.
  destruct (drain cs 0 []) as [cur' log']. simpl in *.
  split_and!; try reflexivity.
  destruct Hcur as [[-> Hlt]|[-> ->]].
  - right. exists k. split_and!; [reflexivity | lia | lia | exact Hlog].
  - left. split; [reflexivity|]. rewrite Hlog. apply List.firstn_all.
Qed.

(** C2, as the dispatcher has it. An SSE session ends when the
    connection reports closed, on the request side or on the response
    side, and only then: as long as no close event has come, whatever
    the handler has done, returning included, the session is open and no
    cleanup has been called. The first close event closes the session
    and starts the cleanups; once the awaited ones have settled, every
    registered callback has been called, in registration order. *)
Theorem close_ends_session (pre settled : list (Event Value)) (side : Side)
    (r : ServerResponse) :
  close_free pre = true ->
  all_settle settled = true ->
  length (registered pre) <= length settled ->
  let before := fst (run JSON_stringify pre (new_session, r)) in
  let after :=
    fst (run JSON_stringify (pre ++ EvClose side :: settled) (new_session, r)) in
  closed before = false /\ ran before = [] /\
  closed after = true /\ ran after = registered pre.
Proof.
  intros Hfree Hall Hlen. cbv zeta.
  rewrite !run_session. simpl fst.
  rewrite session_run_app.
  rewrite (open_session_run pre new_session Hfree) by reflexivity.
  simpl cleanups. rewrite List.app_nil_l.
  split; [reflexivity|]. split; [reflexivity|].
  set (s0 := {| cleanups := registered pre; closed := false; cursor := None; ran := [] |}).
  change (session_run (EvClose side :: settled) s0)
    with (session_run settled (runCleanup s0)).
  destruct (runCleanup_open s0) as (Hcs & Hcl & Hstate); [reflexivity | reflexivity |].
  simpl in Hcs.
  destruct (settlements_drain settled (runCleanup s0) Hall Hcl) as [H1 H2].
  - rewrite Hcs. simpl. destruct Hstate as [Hdone|(k & Hc & Hk & Hr)]; [by left|].
    right. exists k. simpl in Hk. split_and!; [exact Hc | lia | exact Hr | lia].
  - split; [exact H1|]. rewrite H2. exact Hcs.
Qed.

Lemma session_step_closed ev s :
  closed s = true -> closed (session_step ev s) = true.
Proof.
  intros Hcl. destruct ev as [event data|fn|side|b|c]; simpl; try exact Hcl.
  - apply runCleanup_closes.
  - unfold settle. destruct (cursor s); [|exact Hcl].
    unfold loop_from. destruct (drain _ _ _). exact Hcl.
Qed.

Lemma session_run_closed (t : list (Event Value)) s :
  closed s = true -> closed (session_run t s) = true.
Proof.
  revert s. induction t as [|ev t IH]; intros s Hcl; [exact Hcl|].
  apply (IH (session_step ev s)). by apply session_step_closed.
Qed.

(** After a close event the session is closed for good. *)
Lemma closed_after_close (pre later : list (Event Value)) side st :
  closed (fst (run JSON_stringify (pre ++ EvClose side :: later) st)) = true.
Proof.
  rewrite run_session, session_run_app.
  apply (session_run_closed later (runCleanup (session_run pre (fst st)))).
  apply runCleanup_closes.
Qed.

(** With both callbacks called, nothing calls them again. *)
Lemma both_called_stable (f1 f2 : Callback) (t : list (Event Value)) :
  forall s, registration_free t = true ->
  closed s = true -> cleanups s = [f1; f2] -> ran s = [f1; f2] ->
  cursor s = Some 2 \/ cursor s = None ->
  closed (session_run t s) = true /\ ran (session_run t s) = [f1; f2].
Proof.
  induction t as [|ev t IH]; intros s Hfree Hcl Hcs Hran Hcur.
  - by split.
  - apply andb_prop in Hfree as [Hev Hfree].
    change (session_run (ev :: t) s) with (session_run t (session_step ev s)).
    destruct ev as [event data|fn|side|b|c]; simpl in Hev; try discriminate Hev;
      simpl session_step.
    + by apply IH.
    + rewrite (runCleanup_closed s Hcl). by apply IH.
    + destruct s as [cs cl cur log]. simpl in *. subst.
      destruct Hcur as [->| ->]; unfold settle, loop_from; simpl;
        apply IH; simpl; auto.
    + by apply IH.
Qed.

(** With the first callback called and awaited, the second is called at
    the first settlement, whichever way the promise settles. *)
Lemma first_called_then_second (f1 f2 : Callback) (t : list (Event Value)) :
  forall s, registration_free t = true ->
  closed s = true -> cleanups s = [f1; f2] -> ran s = [f1] -> cursor s = Some 1 ->
  closed (session_run t s) = true /\
  ran (session_run t s) = if existsb is_settle t then [f1; f2] else [f1].
Proof.
  induction t as [|ev t IH]; intros s Hfree Hcl Hcs Hran Hcur.
  - by split.
  - apply andb_prop in Hfree as [Hev Hfree].
    change (session_run (ev :: t) s) with (session_run t (session_step ev s)).
    destruct ev as [event data|fn|side|b|c]; simpl in Hev; try discriminate Hev;
      simpl session_step; simpl existsb.
    + by apply IH.
    + rewrite (runCleanup_closed s Hcl). by apply IH.
    + destruct s as [cs cl cur log]. simpl in *. subst.
      unfold settle, loop_from. simpl.
      destruct (cb_behaviour f2); simpl;
        apply both_called_stable; simpl; auto.
    + by apply IH.
Qed.

(** C6. A handler registers two cleanup callbacks, then the client
    disconnects. The session is closed; the first callback is called at
    once and the second as soon as the first has failed or settled, be
    it by rejection. Whatever follows without a new registration, more
    close events on either side included, calls nothing again: the
    callbacks called are the two, in registration order, once each, and
    [runCleanup] on the closed session changes nothing. *)
Theorem two_cleanups_once (f1 f2 : Callback) (pre later : list (Event Value))
    (side : Side) (r : ServerResponse) :
  close_free pre = true ->
  registered pre = [f1; f2] ->
  registration_free later = true ->
  let s := fst (run JSON_stringify (pre ++ EvClose side :: later) (new_session, r)) in
  closed s = true /\
  ran s = (if throws f1 || existsb is_settle later then [f1; f2] else [f1]) /\
  runCleanup s = s.
Proof.
  intros Hfree Hreg Hlater. cbv zeta.
  rewrite run_session. simpl fst. rewrite session_run_app.
  rewrite (open_session_run pre new_session Hfree) by reflexivity.
  simpl cleanups. rewrite List.app_nil_l, Hreg.
  set (s0 := {| cleanups := [f1; f2]; closed := false; cursor := None; ran := [] |}).
  change (session_run (EvClose side :: later) s0)
    with (session_run later (runCleanup s0)).
  assert (H : closed (session_run later (runCleanup s0)) = true /\
              ran (session_run later (runCleanup s0)) =
              (if throws f1 || existsb is_settle later then [f1; f2] else [f1])).
  { unfold runCleanup, loop_from, s0, throws. simpl.
    destruct (cb_behaviour f1); simpl.
    - destruct (cb_behaviour f2); simpl;
        apply both_called_stable; simpl; auto.
    - apply first_called_then_second; simpl; auto. }
  destruct H as [Hcl Hran]. split_and!; [exact Hcl | exact Hran |].
  by apply runCleanup_closed.
Qed.

(** C9. [emit] on a closed session returns normally and leaves the
    response as it is. On an open session, when the data serialises to
    [t], it returns normally after writing two strings, the line
    [event: <name>] and the line [data: <t>] followed by an empty line,
    and nothing else of the response or of the session changes. *)
Theorem emit_frame_or_drop (s : Session) (r : ServerResponse)
    (event : string) (data : JsValue Value) :
  (closed s = true ->
   emit JSON_stringify event data (s, r) = (Normal tt, (s, r))) /\
  (forall t, closed s = false -> stringify JSON_stringify data = JsonText t ->
   let '(completion, (s', r')) := emit JSON_stringify event data (s, r) in
   completion = Normal tt /\ s' = s /\
   res_body r' = res_body r ++ [WText ("event: " +:+ event +:+ LF);
                                WText ("data: " +:+ t +:+ LF +:+ LF)] /\
   res_statusCode r' = res_statusCode r /\
   res_headers r' = res_headers r /\
   res_finished r' = res_finished r).
Proof.
  split.
  - intros Hcl. unfold emit. by rewrite Hcl.
  - intros t Hcl Ht. unfold emit. rewrite Hcl, Ht. simpl.
    split_and!; try reflexivity. by rewrite <- List.app_assoc.
Qed.

End SessionProperties.

(** ** The properties at work on the demo application *)

Lemma options_short_circuit_witness :
  req_method Demo.options_rpc = Some "OPTIONS"%string /\
  res_statusCode (res (dispatch Demo.JSON_stringify Demo.strict_api Demo.options_rpc)) = 204 /\
  res_body (res (dispatch Demo.JSON_stringify Demo.strict_api Demo.options_rpc)) = [] /\
  calls (dispatch Demo.JSON_stringify Demo.strict_api Demo.options_rpc) = [] /\
  unread (dispatch Demo.JSON_stringify Demo.strict_api Demo.options_rpc) = [Demo.hello].
Proof.
  split; [reflexivity|].
  destruct (options_short_circuit string Demo.Value Demo.JSON_stringify
              Demo.strict_api Demo.options_rpc eq_refl)
    as (H1 & H2 & _ & H4 & _ & H6 & _).
  exact (conj H1 (conj H2 (conj H4 H6))).
Defined.

(** C3 as stated fails: an OPTIONS request to a path without a route is
    answered 204 with an empty body, not 404. *)
Lemma options_on_unknown_path :
  api_routes Demo.api !! request_path Demo.options_unknown = None /\
  res_statusCode (res (dispatch Demo.JSON_stringify Demo.api Demo.options_unknown)) = 204 /\
  res_body (res (dispatch Demo.JSON_stringify Demo.api Demo.options_unknown)) = [] /\
  res_statusCode (res (dispatch Demo.JSON_stringify Demo.api Demo.options_unknown)) <> 404.
Proof. vm_compute. split_and!; try reflexivity. discriminate. Qed.

Lemma unregistered_path_not_found_witness :
  req_method Demo.get_unknown <> Some "OPTIONS"%string /\
  api_routes Demo.api !! request_path Demo.get_unknown = None /\
  res_statusCode (res (dispatch Demo.JSON_stringify Demo.api Demo.get_unknown)) = 404 /\
  res_body (res (dispatch Demo.JSON_stringify Demo.api Demo.get_unknown))
  = [WText (quoted "NOT_FOUND")].
Proof.
  assert (Hm : req_method Demo.get_unknown <> Some "OPTIONS"%string) by discriminate.
  assert (Hr : api_routes Demo.api !! request_path Demo.get_unknown = None)
    by reflexivity.
  destruct (unregistered_path_not_found string Demo.Value Demo.JSON_stringify
              Demo.api Demo.get_unknown Hm Hr) as (H1 & H2 & _).
  exact (conj Hm (conj Hr (conj H1 H2))).
Defined.

(** C1 as stated fails: a PUT to an RPC route has its body read before
    the method is looked at, and behind a four-byte limit the five-byte
    body is answered 413, not 405. *)
Lemma method_mismatch_reads_body :
  api_routes Demo.api !! request_path Demo.put_rpc = Some (RouteRpc Demo.rpc_handler) /\
  req_stream Demo.put_rpc = [Demo.hello] /\
  unread (dispatch Demo.JSON_stringify Demo.api Demo.put_rpc) = [] /\
  api_routes Demo.strict_api !! request_path Demo.put_rpc
  = Some (RouteRpc Demo.rpc_handler) /\
  res_statusCode (res (dispatch Demo.JSON_stringify Demo.strict_api Demo.put_rpc)) = 413 /\
  res_body (res (dispatch Demo.JSON_stringify Demo.strict_api Demo.put_rpc))
  = [WText (quoted "PAYLOAD_TOO_LARGE")].
Proof. split_and!; reflexivity. Qed.

Lemma method_mismatch_after_body_witness :
  api_routes Demo.api !! request_path Demo.put_rpc = Some (RouteRpc Demo.rpc_handler) /\
  req_method Demo.put_rpc <> Some "OPTIONS"%string /\
  req_method Demo.put_rpc <> Some "POST"%string /\
  total_size (req_stream Demo.put_rpc) <= maxSize (api_options Demo.api) /\
  res_statusCode (res (dispatch Demo.JSON_stringify Demo.api Demo.put_rpc)) = 405 /\
  res_body (res (dispatch Demo.JSON_stringify Demo.api Demo.put_rpc))
  = [WText (quoted "METHOD_NOT_ALLOWED")] /\
  calls (dispatch Demo.JSON_stringify Demo.api Demo.put_rpc) = [].
Proof.
  assert (Hr : api_routes Demo.api !! request_path Demo.put_rpc
               = Some (RouteRpc Demo.rpc_handler)) by reflexivity.
  assert (Ho : req_method Demo.put_rpc <> Some "OPTIONS"%string) by discriminate.
  assert (Hm : req_method Demo.put_rpc <> Some "POST"%string) by discriminate.
  assert (Hs : total_size (req_stream Demo.put_rpc) <= maxSize (api_options Demo.api))
    by (vm_compute; discriminate).
  destruct (method_mismatch_after_body string Demo.Value Demo.JSON_stringify
              Demo.api Demo.put_rpc (RouteRpc Demo.rpc_handler)
              Hr (or_introl eq_refl) Ho Hm Hs) as (H1 & H2 & _ & H4 & _).
  exact (conj Hr (conj Ho (conj Hm (conj Hs (conj H1 (conj H2 H4)))))).
Defined.

Lemma oversized_body_rejected_witness :
  api_routes Demo.strict_api !! request_path Demo.post_rpc
  = Some (RouteRpc Demo.rpc_handler) /\
  req_method Demo.post_rpc <> Some "OPTIONS"%string /\
  0 <= maxSize (api_options Demo.strict_api) /\
  maxSize (api_options Demo.strict_api) < total_size (req_stream Demo.post_rpc) /\
  res_statusCode (res (dispatch Demo.JSON_stringify Demo.strict_api Demo.post_rpc)) = 413 /\
  res_body (res (dispatch Demo.JSON_stringify Demo.strict_api Demo.post_rpc))
  = [WText (quoted "PAYLOAD_TOO_LARGE")] /\
  calls (dispatch Demo.JSON_stringify Demo.strict_api Demo.post_rpc) = [].
Proof.
  assert (Hr : api_routes Demo.strict_api !! request_path Demo.post_rpc
               = Some (RouteRpc Demo.rpc_handler)) by reflexivity.
  assert (Ho : req_method Demo.post_rpc <> Some "OPTIONS"%string) by discriminate.
  assert (H0 : 0 <= maxSize (api_options Demo.strict_api))
    by (vm_compute; discriminate).
  assert (Hs : maxSize (api_options Demo.strict_api) < total_size (req_stream Demo.post_rpc))
    by reflexivity.
  destruct (oversized_body_rejected string Demo.Value Demo.JSON_stringify
              Demo.strict_api Demo.post_rpc (RouteRpc Demo.rpc_handler)
              Hr eq_refl Ho H0 Hs) as (H1 & H2 & _ & H4 & _).
  exact (conj Hr (conj Ho (conj H0 (conj Hs (conj H1 (conj H2 H4)))))).
Defined.

Lemma rpc_result_written_witness :
  (api_routes Demo.api !! request_path Demo.post_rpc = Some (RouteRpc Demo.rpc_handler) /\
   req_method Demo.post_rpc = Some "POST"%string /\
   total_size (req_stream Demo.post_rpc) <= maxSize (api_options Demo.api) /\
   res_body (res (dispatch Demo.JSON_stringify Demo.api Demo.post_rpc))
   = [WText ("{" +:+ quoted "a" +:+ ":1}")] /\
   res_headers (res (dispatch Demo.JSON_stringify Demo.api Demo.post_rpc))
     !! "content-type"%string = Some "application/json"%string) /\
  (api_routes Demo.api !! request_path Demo.post_void = Some (RouteRpc Demo.void_handler) /\
   body_text (res_body (res (dispatch Demo.JSON_stringify Demo.api Demo.post_void)))
   = Some EmptyString /\
   res_headers (res (dispatch Demo.JSON_stringify Demo.api Demo.post_void))
     !! "content-type"%string = None).
Proof.
  assert (Hr : api_routes Demo.api !! request_path Demo.post_rpc
               = Some (RouteRpc Demo.rpc_handler)) by reflexivity.
  assert (Hs : total_size (req_stream Demo.post_rpc) <= maxSize (api_options Demo.api))
    by (vm_compute; discriminate).
  assert (Hs' : total_size (req_stream Demo.post_void) <= maxSize (api_options Demo.api))
    by (vm_compute; discriminate).
  destruct (rpc_result_written string Demo.Value Demo.JSON_stringify
              Demo.api Demo.post_rpc Demo.rpc_handler (Some Demo.ObjectA1)
              Hr eq_refl Hs eq_refl) as [_ H].
  destruct (rpc_result_written string Demo.Value Demo.JSON_stringify
              Demo.api Demo.post_void Demo.void_handler None
              eq_refl eq_refl Hs' eq_refl) as [_ H'].
  exact (conj (conj Hr (conj eq_refl (conj Hs (H _ eq_refl)))) (conj eq_refl H')).
Defined.

(** C2 as stated fails: the handler of [/events] registers two cleanups
    and returns; the session is still open and neither was called. *)
Lemma handler_return_keeps_session_open :
  api_routes Demo.api !! request_path Demo.get_events
  = Some (RouteSse Demo.events_handler) /\
  Demo.handler_events
  = [EvOnCleanup Demo.first; EvOnCleanup Demo.second;
     EvEmit "tick" (Some Demo.ObjectA1); EvReturn (Normal tt)] /\
  session (dispatch Demo.JSON_stringify Demo.api Demo.get_events)
  = Some {| cleanups := [Demo.first; Demo.second]; closed := false;
            cursor := None; ran := [] |}.
Proof. split_and!; reflexivity. Qed.

Lemma close_ends_session_witness :
  close_free Demo.handler_events = true /\
  all_settle Demo.settlements = true /\
  (length (registered Demo.handler_events) <= length Demo.settlements)%nat /\
  closed (fst (run Demo.JSON_stringify Demo.handler_events
                 (new_session, fresh_response))) = false /\
  ran (fst (run Demo.JSON_stringify
              (Demo.handler_events ++ EvClose ResponseSide :: Demo.settlements)
              (new_session, fresh_response)))
  = [Demo.first; Demo.second].
Proof.
  assert (Hlen : (length (registered Demo.handler_events)
                  <= length Demo.settlements)%nat) by (vm_compute; lia).
  destruct (close_ends_session Demo.Value Demo.JSON_stringify
              Demo.handler_events Demo.settlements ResponseSide fresh_response
              eq_refl eq_refl Hlen) as (H1 & _ & _ & H4).
  exact (conj eq_refl (conj eq_refl (conj Hlen (conj H1 H4)))).
Defined.

Lemma two_cleanups_once_witness :
  close_free [@EvOnCleanup Demo.Value Demo.failing; EvOnCleanup Demo.second] = true /\
  registered [@EvOnCleanup Demo.Value Demo.failing; EvOnCleanup Demo.second]
  = [Demo.failing; Demo.second] /\
  registration_free [@EvClose Demo.Value RequestSide; EvSettle true; EvClose ResponseSide]
  = true /\
  ran (fst (run Demo.JSON_stringify
              ([EvOnCleanup Demo.failing; EvOnCleanup Demo.second]
               ++ EvClose ResponseSide
               :: [EvClose RequestSide; EvSettle true; EvClose ResponseSide])
              (new_session, fresh_response)))
  = [Demo.failing; Demo.second].
Proof.
  destruct (two_cleanups_once Demo.Value Demo.JSON_stringify
              Demo.failing Demo.second
              [EvOnCleanup Demo.failing; EvOnCleanup Demo.second]
              [EvClose RequestSide; EvSettle true; EvClose ResponseSide]
              ResponseSide fresh_response eq_refl eq_refl eq_refl) as (_ & H & _).
  exact (conj eq_refl (conj eq_refl (conj eq_refl H))).
Defined.

Lemma emit_frame_or_drop_witness :
  closed Demo.closed_session = true /\
  emit Demo.JSON_stringify "tick" (Some Demo.ObjectA1)
    (Demo.closed_session, fresh_response)
  = (Normal tt, (Demo.closed_session, fresh_response)) /\
  closed new_session = false /\
  res_body (snd (snd (emit Demo.JSON_stringify "tick" (Some Demo.ObjectA1)
                        (new_session, fresh_response))))
  = [WText ("event: tick" +:+ LF);
     WText ("data: {" +:+ quoted "a" +:+ ":1}" +:+ LF +:+ LF)].
Proof.
  destruct (emit_frame_or_drop Demo.Value Demo.JSON_stringify
              Demo.closed_session fresh_response "tick" (Some Demo.ObjectA1))
    as [Hdrop _].
  destruct (emit_frame_or_drop Demo.Value Demo.JSON_stringify
              new_session fresh_response "tick" (Some Demo.ObjectA1))
    as [_ Hframe].
  specialize (Hframe _ eq_refl eq_refl).
  split; [reflexivity|]. split; [exact (Hdrop eq_refl)|]. split; [reflexivity|].
  destruct (emit Demo.JSON_stringify "tick" (Some Demo.ObjectA1)
              (new_session, fresh_response)) as [c [s' r']].
  destruct Hframe as (_ & _ & Hbody & _). exact Hbody.
Defined.

(** * Further properties of the dispatcher *)

Lemma handleError_headers err r : res_headers (handleError err r) = res_headers r.
Proof. destruct err as [e|v|d]; reflexivity. Qed.

Lemma handleError_finished err r : res_finished (handleError err r) = true.
Proof. destruct err as [e|v|d]; reflexivity. Qed.

Section DispatcherExtras.

Variable Ctx : Type.
Variable Value : Type.
Variable JSON_stringify : Value -> Stringified.

(** ** Registration *)

(** X1. Registering a path again replaces the route that was there,
    whatever the kinds of the two: the path resolves to the last route
    registered, and the [Api] is the one that only saw the last
    registration. *)
Theorem registration_replaces (path : string) (earlier later : Route Ctx Value)
    (api : Api Ctx Value) :
  api_routes (set_route path later (set_route path earlier api)) !! path = Some later /\
  set_route path later (set_route path earlier api) = set_route path later api.
Proof.
  split.
  - apply lookup_insert_eq.
  - unfold set_route. simpl. f_equal. apply insert_insert_eq.
Qed.

(** X2. Registering a route changes nothing for the requests to other
    paths: they are dispatched as before. *)
Theorem registration_is_local (path : string) (route : Route Ctx Value)
    (api : Api Ctx Value) (req : IncomingMessage) :
  request_path req <> path ->
  dispatch JSON_stringify (set_route path route api) req
  = dispatch JSON_stringify api req.
Proof.
  intros Hne. unfold dispatch, set_route. simpl.
  rewrite lookup_insert_ne by congruence. reflexivity.
Qed.

(** ** The upload kind *)

(** X3. A POST to an upload route, whatever the size of its body: the
    handler is called once with the request as it came, nothing read
    from its stream and no [body] attached, and once it has returned the
    response is 200 with body "OK". *)
Theorem upload_passthrough (api : Api Ctx Value) (req : IncomingMessage)
    (handler : Context Ctx -> Completion (JsValue Value)) (result : JsValue Value) :
  api_routes api !! request_path req = Some (RouteUpload handler) ->
  req_method req = Some "POST"%string ->
  handler (mkContext req (api_ctx api)) = Normal result ->
  let w := dispatch JSON_stringify api req in
  res_statusCode (res w) = 200 /\
  res_body (res w) = [WText (quoted "OK")] /\
  res_finished (res w) = true /\
  calls w = [(KindUpload, mkContext req (api_ctx api))] /\
  unread w = req_stream req.
Proof.
  intros Hr Hm Hh. unfold dispatch.
  assert (Ho : req_method req <> Some "OPTIONS"%string) by (rewrite Hm; discriminate).
  rewrite (method_is_false _ _ Ho), Hr. cbv beta iota zeta.
  rewrite (method_is_true _ _ Hm), Hh. simpl.
  rewrite cors_headers_body. split_and!; reflexivity.
Qed.

(** X4. On an upload route the method is checked first: a request whose
    method is neither POST nor OPTIONS is answered 405
    "METHOD_NOT_ALLOWED", the handler is not called and no chunk of the
    body has been read. *)
Theorem upload_rejects_before_reading (api : Api Ctx Value) (req : IncomingMessage)
    (handler : Context Ctx -> Completion (JsValue Value)) :
  api_routes api !! request_path req = Some (RouteUpload handler) ->
  req_method req <> Some "POST"%string ->
  req_method req <> Some "OPTIONS"%string ->
  let w := dispatch JSON_stringify api req in
  res_statusCode (res w) = 405 /\
  res_body (res w) = [WText (quoted "METHOD_NOT_ALLOWED")] /\
  calls w = [] /\
  unread w = req_stream req.
Proof.
  intros Hr Hm Ho. unfold dispatch.
  rewrite (method_is_false _ _ Ho), Hr. cbv beta iota zeta.
  rewrite (method_is_false _ _ Hm). simpl.
  rewrite cors_headers_body. split_and!; reflexivity.
Qed.

(** ** Handlers that throw *)

(** X5. When the handler of an RPC, Blob or Upload route is called and
    throws, the response is the one [handleError] makes of the thrown
    value on a response that holds the CORS headers only: the status and
    the quoted code of the mapping, nothing else in the body, and the
    response is ended. *)
Theorem handler_throw_mapped (api : Api Ctx Value) (req : IncomingMessage)
    (route : Route Ctx Value) (err : Thrown) :
  api_routes api !! request_path req = Some route ->
  req_method req = Some (required_method (kind route)) ->
  (acquires_body (kind route) = true ->
   total_size (req_stream req) <= maxSize (api_options api)) ->
  thrown_by route (handler_context api req route) = Some err ->
  let w := dispatch JSON_stringify api req in
  res_statusCode (res w) = fst (spec_mapping err) /\
  res_body (res w) = [WText (quoted (snd (spec_mapping err)))] /\
  res_finished (res w) = true /\
  calls w = [(kind route, handler_context api req route)].
Proof.
  intros Hr Hm Hsize Hthrow. unfold dispatch.
  assert (Ho : req_method req <> Some "OPTIONS"%string).
  { rewrite Hm. destruct route; discriminate. }
  rewrite (method_is_false _ _ Ho), Hr.
  destruct route as [h|h|h|h]; simpl in Hm, Hsize, Hthrow; try discriminate Hthrow.
  - rewrite (readBody_within _ _ 0 []) by (specialize (Hsize eq_refl); lia).
    rewrite List.app_nil_l. cbv beta iota zeta.
    rewrite (method_is_true _ _ Hm). simpl.
    destruct (h _) as [v|e]; [discriminate Hthrow|]. injection Hthrow as ->.
    simpl. rewrite handleError_respond, respond_body, cors_headers_body.
    split_and!; reflexivity.
  - rewrite (readBody_within _ _ 0 []) by (specialize (Hsize eq_refl); lia).
    rewrite List.app_nil_l. cbv beta iota zeta.
    rewrite (method_is_true _ _ Hm). simpl.
    destruct (h _) as [v|e]; [discriminate Hthrow|]. injection Hthrow as ->.
    simpl. rewrite handleError_respond, respond_body, cors_headers_body.
    split_and!; reflexivity.
  - cbv beta iota zeta. rewrite (method_is_true _ _ Hm). simpl.
    destruct (h _) as [v|e]; [discriminate Hthrow|]. injection Hthrow as ->.
    simpl. rewrite handleError_respond, respond_body, cors_headers_body.
    split_and!; reflexivity.
Qed.

(** ** The blob kind *)

(** X6. A GET to a blob route whose handler returns: a buffer is the
    whole body of the ended response, a stream is piped to the response;
    either way the status stays 200 and the dispatcher adds no header of
    its own to the CORS ones. *)
Theorem blob_written_raw (api : Api Ctx Value) (req : IncomingMessage)
    (handler : Context Ctx -> Completion BlobData) (data : BlobData) :
  api_routes api !! request_path req = Some (RouteBlob handler) ->
  req_method req = Some "GET"%string ->
  total_size (req_stream req) <= maxSize (api_options api) ->
  handler (mkContext (reqWithBody req (decode_chunks (req_stream req))) (api_ctx api))
    = Normal data ->
  let w := dispatch JSON_stringify api req in
  res_statusCode (res w) = 200 /\
  res_headers (res w) = res_headers (cors_headers (api_cors api) fresh_response) /\
  match data with
  | BlobBuffer bytes => res_body (res w) = [WBuffer bytes] /\ res_finished (res w) = true
  | BlobReadable source => res_body (res w) = [WPipe source]
  end.
Proof.
  intros Hr Hm Hsize Hh. unfold dispatch.
  assert (Ho : req_method req <> Some "OPTIONS"%string) by (rewrite Hm; discriminate).
  rewrite (method_is_false _ _ Ho), Hr.
  rewrite (readBody_within _ _ 0 []) by lia.
  rewrite List.app_nil_l. cbv beta iota zeta.
  rewrite (method_is_true _ _ Hm), Hh. simpl.
  destruct data as [bytes|source]; simpl;
    rewrite cors_headers_body, cors_headers_status; split_and!; reflexivity.
Qed.

(** ** The result of an RPC that does not serialise *)

(** X7. An RPC handler returns a value other than [undefined]: the
    content-type header is set before the value is serialised. When
    [JSON.stringify] returns [undefined] the response is ended with an
    empty body, and when it throws the response is the error response of
    what it threw; in both cases content-type: application/json is
    already on the response. *)
Theorem rpc_unserialisable_result (api : Api Ctx Value) (req : IncomingMessage)
    (handler : Context Ctx -> Completion (JsValue Value)) (v : Value) :
  api_routes api !! request_path req = Some (RouteRpc handler) ->
  req_method req = Some "POST"%string ->
  total_size (req_stream req) <= maxSize (api_options api) ->
  handler (mkContext (reqWithBody req (decode_chunks (req_stream req))) (api_ctx api))
    = Normal (Some v) ->
  let w := dispatch JSON_stringify api req in
  res_headers (res w) !! "content-type"%string = Some "application/json"%string /\
  res_finished (res w) = true /\
  match JSON_stringify v with
  | JsonText t => res_body (res w) = [WText t]
  | JsonUndefined => res_body (res w) = [] /\ res_statusCode (res w) = 200
  | JsonThrows err =>
      res_body (res w) = [WText (quoted (snd (spec_mapping err)))] /\
      res_statusCode (res w) = fst (spec_mapping err)
  end.
Proof.
  intros Hr Hm Hsize Hh. unfold dispatch.
  assert (Ho : req_method req <> Some "OPTIONS"%string) by (rewrite Hm; discriminate).
  rewrite (method_is_false _ _ Ho), Hr.
  rewrite (readBody_within _ _ 0 []) by lia.
  rewrite List.app_nil_l. cbv beta iota zeta.
  rewrite (method_is_true _ _ Hm), Hh. simpl.
  destruct (JSON_stringify v) as [t| |err]; simpl.
  - rewrite cors_headers_body. split_and!; try reflexivity. apply lookup_insert_eq.
  - rewrite cors_headers_body, cors_headers_status.
    split_and!; try reflexivity. apply lookup_insert_eq.
  - rewrite handleError_headers, handleError_finished, handleError_respond.
    simpl. rewrite cors_headers_body.
    split_and!; try reflexivity. apply lookup_insert_eq.
Qed.

End DispatcherExtras.

(** ** Headers, handler calls and the body *)

Section DispatchInvariants.

Variable Ctx : Type.
Variable Value : Type.
Variable JSON_stringify : Value -> Stringified.

Lemma step_headers (ev : Event Value) st :
  res_headers (snd (step JSON_stringify ev st)) = res_headers (snd st).
Proof.
  destruct st as [s r]. destruct ev as [event data|fn|side|b|[u|e]]; try reflexivity.
  - simpl. unfold emit. destruct (closed s); [reflexivity|].
    destruct (stringify JSON_stringify data); reflexivity.
  - simpl. apply handleError_headers.
Qed.

Lemma run_headers (t : list (Event Value)) st :
  res_headers (snd (run JSON_stringify t st)) = res_headers (snd st).
Proof.
  revert st. induction t as [|ev t IH]; intros st; [reflexivity|].
  rewrite run_cons, IH. apply step_headers.
Qed.

Lemma readBody_complete_text limit chunks size text text' :
  readBody limit chunks size text = Complete text' ->
  text' = text ++ decode_chunks chunks.
Proof.
  revert size text.
  induction chunks as [|c chunks IH]; intros size text; simpl.
  - intros [= <-]. unfold decode_chunks. simpl. by rewrite List.app_nil_r.
  - destruct (limit <? size + Buffer_length c); [discriminate|].
    intros H. rewrite (IH _ _ H). unfold decode_chunks. simpl.
    by rewrite <- List.app_assoc.
Qed.

(** Apart from the three content headers, the response carries the
    headers the CORS step put there and no other. *)
Lemma dispatch_headers (api : Api Ctx Value) (req : IncomingMessage) (name : string) :
  content_header name = false ->
  res_headers (res (dispatch JSON_stringify api req)) !! name
  = res_headers (cors_headers (api_cors api) fresh_response) !! name.
Proof.
  unfold content_header. intros Hname.
  apply orb_false_elim in Hname as [Hname H3].
  apply orb_false_elim in Hname as [H1 H2].
  apply bool_decide_eq_false in H1, H2, H3.
  unfold dispatch.
  destruct (method_is req "OPTIONS"); [reflexivity|].
  destruct (api_routes api !! request_path req) as [[h|h|h|h]|]; [..|reflexivity].
  - destruct (readBody _ _ _ _) as [rest|text]; [reflexivity|].
    destruct (negb (method_is req "POST")); [reflexivity|].
    destruct (h _) as [[v|]|e]; [destruct (JSON_stringify v) as [t| |e]|..]; simpl;
      rewrite ?handleError_headers; simpl;
      rewrite ?lookup_insert_ne by congruence; reflexivity.
  - destruct (readBody _ _ _ _) as [rest|text]; [reflexivity|].
    destruct (negb (method_is req "GET")); [reflexivity|].
    cbv beta iota zeta.
    match goal with
    | |- context [run JSON_stringify ?t ?st] =>
        pose proof (run_headers t st) as Hrun;
        destruct (run JSON_stringify t st) as [s r2]
    end.
    simpl in Hrun |- *. rewrite Hrun.
    rewrite !lookup_insert_ne by congruence. reflexivity.
  - destruct (readBody _ _ _ _) as [rest|text]; [reflexivity|].
    destruct (negb (method_is req "GET")); [reflexivity|].
    destruct (h _) as [[bytes|source]|e]; simpl;
      rewrite ?handleError_headers; reflexivity.
  - destruct (negb (method_is req "POST")); [reflexivity|].
    destruct (h _) as [v|e]; simpl; rewrite ?handleError_headers; reflexivity.
Qed.

(** X8. With the CORS option set, every response the dispatcher makes,
    for whatever request, route and outcome (the 204 of OPTIONS, 404,
    405, 413, an error response, an event stream), carries the three
    Access-Control headers, the origin being the configured one. *)
Theorem cors_on_every_response (api : Api Ctx Value) (req : IncomingMessage)
    (o : CorsOptions) :
  api_cors api = Some o ->
  let headers := res_headers (res (dispatch JSON_stringify api req)) in
  headers !! "Access-Control-Allow-Origin"%string = Some (origin o) /\
  headers !! "Access-Control-Allow-Credentials"%string = Some "true"%string /\
  headers !! "Access-Control-Allow-Headers"%string = Some "content-type"%string.
Proof.
  intros Hc. cbv zeta. rewrite !dispatch_headers by reflexivity. rewrite Hc. simpl.
  split_and!.
  - rewrite !lookup_insert_ne by discriminate. apply lookup_insert_eq.
  - rewrite lookup_insert_ne by discriminate. apply lookup_insert_eq.
  - apply lookup_insert_eq.
Qed.

(** X9. Without the CORS option, a response carries no header besides
    content-type, cache-control and connection: in particular no
    Access-Control header at all. *)
Theorem no_cors_no_header (api : Api Ctx Value) (req : IncomingMessage)
    (name : string) :
  api_cors api = None ->
  content_header name = false ->
  res_headers (res (dispatch JSON_stringify api req)) !! name = None.
Proof.
  intros Hc Hname. rewrite dispatch_headers by exact Hname. rewrite Hc. simpl.
  apply lookup_empty.
Qed.

(** ** The event-stream kind *)

(** X10. A GET to an SSE route: the response carries content-type:
    text/event-stream, cache-control: no-cache and connection:
    keep-alive, whatever the handler and the transport do afterwards;
    the handler is called once, with the application context, and the
    session it is given starts without cleanups and open. *)
Theorem sse_stream_opened (api : Api Ctx Value) (req : IncomingMessage)
    (handler : Context Ctx -> list (Event Value)) :
  api_routes api !! request_path req = Some (RouteSse handler) ->
  req_method req = Some "GET"%string ->
  total_size (req_stream req) <= maxSize (api_options api) ->
  let ctx := mkContext (reqWithBody req (decode_chunks (req_stream req))) (api_ctx api) in
  let w := dispatch JSON_stringify api req in
  res_headers (res w) !! "content-type"%string = Some "text/event-stream"%string /\
  res_headers (res w) !! "cache-control"%string = Some "no-cache"%string /\
  res_headers (res w) !! "connection"%string = Some "keep-alive"%string /\
  calls w = [(KindSse, ctx)] /\
  session w = Some (session_run (handler ctx) new_session).
Proof.
  intros Hr Hm Hsize. cbv zeta. unfold dispatch.
  assert (Ho : req_method req <> Some "OPTIONS"%string) by (rewrite Hm; discriminate).
  rewrite (method_is_false _ _ Ho), Hr.
  rewrite (readBody_within _ _ 0 []) by lia.
  rewrite List.app_nil_l. cbv beta iota zeta.
  rewrite (method_is_true _ _ Hm). simpl negb. cbv iota.
  match goal with
  | |- context [run JSON_stringify ?t ?st] =>
      pose proof (run_headers t st) as Hrun;
      pose proof (run_session Value JSON_stringify t st) as Hses;
      destruct (run JSON_stringify t st) as [s r2]
  end.
  simpl in Hrun, Hses |- *. rewrite Hrun, Hses.
  split_and!; try reflexivity.
  - rewrite !lookup_insert_ne by discriminate. apply lookup_insert_eq.
  - rewrite lookup_insert_ne by discriminate. apply lookup_insert_eq.
  - apply lookup_insert_eq.
Qed.

(** X11. On an SSE route, a request whose method is neither GET nor
    OPTIONS and whose body fits the limit is answered 405
    "METHOD_NOT_ALLOWED": no session is opened, the handler is not
    called and the response is not an event stream. *)
Theorem sse_method_mismatch (api : Api Ctx Value) (req : IncomingMessage)
    (handler : Context Ctx -> list (Event Value)) :
  api_routes api !! request_path req = Some (RouteSse handler) ->
  req_method req <> Some "GET"%string ->
  req_method req <> Some "OPTIONS"%string ->
  total_size (req_stream req) <= maxSize (api_options api) ->
  let w := dispatch JSON_stringify api req in
  res_statusCode (res w) = 405 /\
  res_body (res w) = [WText (quoted "METHOD_NOT_ALLOWED")] /\
  res_finished (res w) = true /\
  calls w = [] /\
  session w = None /\
  res_headers (res w) !! "content-type"%string = None.
Proof.
  intros Hr Hm Ho Hsize. unfold dispatch.
  rewrite (method_is_false _ _ Ho), Hr.
  rewrite (readBody_within _ _ 0 []) by lia. cbv beta iota zeta.
  rewrite (method_is_false _ _ Hm). simpl.
  rewrite cors_headers_body. split_and!; try reflexivity.
  apply cors_headers_no_content_type.
Qed.

(** ** Handler calls *)

(** X12. One request makes at most one handler call, and a handler is
    only ever called on its own path, with the method its kind asks for,
    and with the context the dispatcher builds: the application context
    and the request, untouched for an upload, with its decoded body
    attached otherwise. *)
Theorem handler_called_at_most_once (api : Api Ctx Value) (req : IncomingMessage) :
  let w := dispatch JSON_stringify api req in
  calls w = [] \/
  exists route,
    api_routes api !! request_path req = Some route /\
    req_method req = Some (required_method (kind route)) /\
    calls w = [(kind route, handler_context api req route)].
Proof.
  cbv zeta. unfold dispatch.
  destruct (method_is req "OPTIONS"); [by left|].
  destruct (api_routes api !! request_path req) as [[h|h|h|h]|] eqn:Hr; [..|by left].
  - destruct (readBody _ _ _ _) as [rest|text] eqn:Hb; [by left|].
    apply readBody_complete_text in Hb. rewrite List.app_nil_l in Hb. subst text.
    destruct (method_is req "POST") eqn:Hm; simpl; [|by left].
    apply bool_decide_eq_true in Hm.
    right. exists (RouteRpc h). split_and!; [reflexivity | exact Hm |].
    destruct (h _) as [[v|]|e]; [destruct (JSON_stringify v)|..]; reflexivity.
  - destruct (readBody _ _ _ _) as [rest|text] eqn:Hb; [by left|].
    apply readBody_complete_text in Hb. rewrite List.app_nil_l in Hb. subst text.
    destruct (method_is req "GET") eqn:Hm; simpl; [|by left].
    apply bool_decide_eq_true in Hm.
    right. exists (RouteSse h). split_and!; [reflexivity | exact Hm |].
    destruct (run _ _ _). reflexivity.
  - destruct (readBody _ _ _ _) as [rest|text] eqn:Hb; [by left|].
    apply readBody_complete_text in Hb. rewrite List.app_nil_l in Hb. subst text.
    destruct (method_is req "GET") eqn:Hm; simpl; [|by left].
    apply bool_decide_eq_true in Hm.
    right. exists (RouteBlob h). split_and!; [reflexivity | exact Hm |].
    destruct (h _) as [[bytes|source]|e]; reflexivity.
  - destruct (method_is req "POST") eqn:Hm; simpl; [|by left].
    apply bool_decide_eq_true in Hm.
    right. exists (RouteUpload h). split_and!; [reflexivity | exact Hm |].
    destruct (h _) as [v|e]; reflexivity.
Qed.

(** ** The size decision and the body handed over *)

(** X13. Whether a POST to an RPC route reaches the handler depends on
    the number of bytes of the body alone, not on how the transport
    chunks them: with a limit that is a byte count, the handler is
    called when the body has at most that many bytes, a body of exactly
    the limit included, and is not called when it has more. *)
Theorem size_decision_by_total (api : Api Ctx Value) (req : IncomingMessage)
    (handler : Context Ctx -> Completion (JsValue Value)) :
  api_routes api !! request_path req = Some (RouteRpc handler) ->
  req_method req = Some "POST"%string ->
  0 <= maxSize (api_options api) ->
  (calls (dispatch JSON_stringify api req) = [] <->
   maxSize (api_options api) < Buffer_length (payload (req_stream req))).
Proof.
  intros Hr Hm Hlim. rewrite <- total_size_payload.
  destruct (Z_lt_le_dec (maxSize (api_options api)) (total_size (req_stream req)))
    as [Hover|Hfit].
  - split; [intros _; exact Hover|]. intros _. unfold dispatch.
    assert (Ho : req_method req <> Some "OPTIONS"%string) by (rewrite Hm; discriminate).
    rewrite (method_is_false _ _ Ho), Hr.
    destruct (readBody_overflow (maxSize (api_options api)) (req_stream req) 0 [])
      as (pre & chunk & post & _ & _ & _ & ->); [lia | lia |]. reflexivity.
  - rewrite (rpc_handler_context Ctx Value JSON_stringify api req handler Hr Hm Hfit).
    split; [discriminate | lia].
Qed.

(** X14. When no chunk of the body ends inside a multi-byte sequence
    (a body of ASCII bytes, for one), the [body] the RPC handler is
    given is the UTF-8 decoding of the bytes sent, whatever the
    chunking. *)
Theorem rpc_body_on_boundaries (api : Api Ctx Value) (req : IncomingMessage)
    (handler : Context Ctx -> Completion (JsValue Value)) :
  api_routes api !! request_path req = Some (RouteRpc handler) ->
  req_method req = Some "POST"%string ->
  total_size (req_stream req) <= maxSize (api_options api) ->
  Forall (fun chunk => Utf8.complete (List.map byte_value chunk)) (req_stream req) ->
  List.map (fun call => req_body (ctx_req (snd call)))
    (calls (dispatch JSON_stringify api req))
  = [Some (toString_utf8 (payload (req_stream req)))].
Proof.
  intros Hr Hm Hsize Hcut.
  rewrite (rpc_handler_context Ctx Value JSON_stringify api req handler Hr Hm Hsize).
  simpl. by rewrite decode_chunks_on_boundaries.
Qed.

End DispatchInvariants.

(** ** The error classes on the wire *)

Lemma string_length_append (a b : string) :
  String.length (a +:+ b) = (String.length a + String.length b)%nat.
Proof. induction a as [|x a IH]; simpl; [reflexivity | by rewrite IH]. Qed.

Lemma append_inv_tail (a b tail : string) : a +:+ tail = b +:+ tail -> a = b.
Proof.
  revert b. induction a as [|x a IH]; intros [|y b] H.
  - reflexivity.
  - apply (f_equal String.length) in H.
    rewrite !string_length_append in H. simpl in H. lia.
  - apply (f_equal String.length) in H.
    rewrite !string_length_append in H. simpl in H. lia.
  - change (String x (a +:+ tail) = String y (b +:+ tail)) in H.
    injection H as -> H. f_equal. by apply IH.
Qed.

(** X15. The body of an HTTP error is its code between two double
    quotes, the character 34 before it and after it and nothing else,
    so that the body tells the code: two errors with the same body have
    the same code. *)
Theorem http_error_body_determines_code (e1 e2 : HttpError) :
  body e1
  = String (ascii_of_nat 34) (message e1 +:+ String (ascii_of_nat 34) EmptyString) /\
  (body e1 = body e2 -> message e1 = message e2) /\
  String.length (body e1) = (String.length (message e1) + 2)%nat.
Proof.
  destruct e1 as [s1 c1], e2 as [s2 c2]. simpl. unfold quoted, dquote.
  split; [reflexivity|]. split.
  - intros H.
    change (String (ascii_of_nat 34) (c1 +:+ String (ascii_of_nat 34) EmptyString)
            = String (ascii_of_nat 34) (c2 +:+ String (ascii_of_nat 34) EmptyString)) in H.
    injection H as H. by apply append_inv_tail in H.
  - change (String.length
              (String (ascii_of_nat 34) (c1 +:+ String (ascii_of_nat 34) EmptyString))
            = (String.length c1 + 2)%nat).
    simpl. rewrite string_length_append. simpl. lia.
Qed.

(** * Further properties of the SSE session *)

Section SessionExtras.

Variable Value : Type.
Variable JSON_stringify : Value -> Stringified.

Local Open Scope nat_scope.

Lemma loop_from_cleanups i s : cleanups (loop_from i s) = cleanups s.
Proof. unfold loop_from. destruct (drain _ _ _). reflexivity. Qed.

Lemma session_step_cleanups (ev : Event Value) s :
  cleanups (session_step ev s) = cleanups s ++ registered [ev].
Proof.
  destruct ev as [event data|fn|side|b|c]; simpl; rewrite ?List.app_nil_r;
    try reflexivity.
  - unfold runCleanup. destruct (closed s); [reflexivity|].
    by rewrite loop_from_cleanups.
  - unfold settle. destruct (cursor s); [|reflexivity]. apply loop_from_cleanups.
Qed.

Lemma registered_cons (ev : Event Value) t :
  registered (ev :: t) = registered [ev] ++ registered t.
Proof. destruct ev; reflexivity. Qed.

Lemma session_run_cleanups (t : list (Event Value)) s :
  cleanups (session_run t s) = cleanups s ++ registered t.
Proof.
  revert s. induction t as [|ev t IH]; intros s.
  - simpl. by rewrite List.app_nil_r.
  - change (session_run (ev :: t) s) with (session_run t (session_step ev s)).
    rewrite IH, session_step_cleanups, (registered_cons ev t).
    by rewrite <- List.app_assoc.
Qed.

Lemma ordered_new : ordered new_session.
Proof.
  split; [by intros _|]. exists 0. split_and!; [simpl; lia | reflexivity |].
  intros j [=].
Qed.

Lemma ordered_step (ev : Event Value) s : ordered s -> ordered (session_step ev s).
Proof.
  intros Hord. pose proof Hord as [Hopen (k & Hk & Hran & Hcur)].
  destruct ev as [event data|fn|side|b|c]; simpl.
  - exact Hord.
  - split; [exact Hopen|]. exists k. simpl. split_and!.
    + rewrite List.length_app. lia.
    + rewrite List.firstn_app.
      replace (k - length (cleanups s)) with 0 by lia.
      simpl. by rewrite List.app_nil_r.
    + exact Hcur.
  - destruct (closed s) eqn:Hcl.
    + by rewrite (runCleanup_closed s Hcl).
    + destruct (Hopen eq_refl) as [Hnone _].
      destruct (runCleanup_open s Hcl Hnone) as (Hcs & Hcl' & Hstate).
      split; [rewrite Hcl'; discriminate|]. rewrite Hcs.
      destruct Hstate as [[Hc Hr]|(k' & Hc & Hk' & Hr)].
      * exists (length (cleanups s)). split_and!;
          [lia | by rewrite Hr, List.firstn_all | rewrite Hc; discriminate].
      * exists k'. split_and!; [lia | exact Hr |]. rewrite Hc. by intros j [= <-].
  - destruct (cursor s) as [j|] eqn:Hc.
    + rewrite (Hcur j eq_refl) in Hc.
      destruct (closed s) eqn:Hcl; [|destruct (Hopen eq_refl); congruence].
      destruct (settle_progress s k Hcl Hc Hk Hran) as (Hcs & Hcl' & Hstate).
      split; [rewrite Hcl'; discriminate|]. rewrite Hcs.
      destruct Hstate as [[Hc' Hr]|(k' & Hc' & Hk' & Hr)].
      * exists (length (cleanups s)). split_and!;
          [lia | by rewrite Hr, List.firstn_all | rewrite Hc'; discriminate].
      * exists k'. split_and!; [lia | exact Hr |]. rewrite Hc'. by intros j' [= <-].
    + assert (Hs : settle s = s) by (unfold settle; by rewrite Hc).
      by rewrite Hs.
  - exact Hord.
Qed.

Lemma ordered_run (t : list (Event Value)) s : ordered s -> ordered (session_run t s).
Proof.
  revert s. induction t as [|ev t IH]; intros s Hs; [exact Hs|].
  apply (IH (session_step ev s)). by apply ordered_step.
Qed.

(** X16. Whatever the handler and the transport do, in whatever order,
    the cleanup callbacks called so far are the first ones registered,
    in registration order, each registration called at most once: the
    log of calls is a prefix of the list of registrations. *)
Theorem cleanups_in_registration_order (t : list (Event Value)) (r : ServerResponse) :
  exists k,
    ran (fst (run JSON_stringify t (new_session, r))) = firstn k (registered t).
Proof.
  rewrite run_session. simpl fst.
  destruct (ordered_run t new_session ordered_new) as [_ (k & _ & Hran & _)].
  exists k. rewrite Hran, session_run_cleanups. reflexivity.
Qed.

(** X17. Once the session is closed and its cleanup loop has run to the
    end, no callback is called any more: one registered from then on is
    never called, whatever follows. *)
Theorem late_registration_never_called (s : Session) (r : ServerResponse)
    (later : list (Event Value)) :
  closed s = true -> cursor s = None ->
  ran (fst (run JSON_stringify later (s, r))) = ran s.
Proof.
  rewrite run_session. simpl fst. revert s.
  induction later as [|ev later IH]; intros s Hcl Hcur; [reflexivity|].
  change (session_run (ev :: later) s) with (session_run later (session_step ev s)).
  destruct ev as [event data|fn|side|b|c]; simpl session_step.
  - by apply IH.
  - rewrite IH; [reflexivity | exact Hcl | exact Hcur].
  - rewrite (runCleanup_closed s Hcl). by apply IH.
  - unfold settle. rewrite Hcur. by apply IH.
  - by apply IH.
Qed.

(** X18. After the session is closed the dispatcher writes nothing more
    to the response: as long as the handler does not throw, no emit, no
    registration, no close event and no settlement changes it. *)
Theorem closed_session_writes_nothing (s : Session) (r : ServerResponse)
    (later : list (Event Value)) :
  closed s = true -> throw_free later = true ->
  snd (run JSON_stringify later (s, r)) = r.
Proof.
  revert s. induction later as [|ev later IH]; intros s Hcl Hfree; [reflexivity|].
  apply andb_prop in Hfree as [Hev Hfree]. rewrite run_cons.
  assert (Hstep : step JSON_stringify ev (s, r) = (session_step ev s, r)).
  { destruct ev as [event data|fn|side|b|[u|e]]; simpl in Hev |- *;
      try reflexivity; [|discriminate Hev].
    unfold emit. by rewrite Hcl. }
  rewrite Hstep. apply IH; [|exact Hfree]. by apply session_step_closed.
Qed.

(** X19. On an open session, emissions whose data serialise are written
    to the response in the order the handler makes them, one frame of
    two strings each, nothing merged and nothing reordered; the session,
    the status and the headers are not touched. *)
Theorem emits_in_order (s : Session) (r : ServerResponse)
    (emits : list (string * option Value * string)) :
  closed s = false ->
  Forall (fun e => stringify JSON_stringify (snd (fst e)) = JsonText (snd e)) emits ->
  let st := run JSON_stringify (List.map emission_event emits) (s, r) in
  fst st = s /\
  res_body (snd st) = res_body r ++ List.concat (List.map emission_frame emits) /\
  res_statusCode (snd st) = res_statusCode r /\
  res_headers (snd st) = res_headers r /\
  res_finished (snd st) = res_finished r.
Proof.
  intros Hcl Hall. cbv zeta. revert r.
  induction Hall as [|[[event data] text] emits He _ IH]; intros r.
  - simpl. rewrite List.app_nil_r. split_and!; reflexivity.
  - simpl in He. simpl List.map. rewrite run_cons.
    assert (Hstep : step JSON_stringify (emission_event (event, data, text)) (s, r)
                    = (s, write (WText ("data: " +:+ text +:+ LF +:+ LF))
                            (write (WText ("event: " +:+ event +:+ LF)) r))).
    { simpl. unfold emit. by rewrite Hcl, He. }
    rewrite Hstep.
    destruct (IH (write (WText ("data: " +:+ text +:+ LF +:+ LF))
                    (write (WText ("event: " +:+ event +:+ LF)) r)))
      as (H1 & H2 & H3 & H4 & H5).
    split_and!; [exact H1 | | exact H3 | exact H4 | exact H5].
    rewrite H2. simpl. by rewrite <- !List.app_assoc.
Qed.

(** X20. On an open session, [emit] of data that does not serialise:
    when [JSON.stringify] returns [undefined] the data line reads
    [data: undefined]; when it throws, the event line has been written
    already, the data line is not, and the exception goes to the caller
    of [emit]. *)
Theorem emit_unserialisable (s : Session) (r : ServerResponse)
    (event : string) (data : JsValue Value) :
  closed s = false ->
  match stringify JSON_stringify data with
  | JsonText _ => True
  | JsonUndefined =>
      fst (emit JSON_stringify event data (s, r)) = Normal tt /\
      res_body (snd (snd (emit JSON_stringify event data (s, r))))
      = res_body r ++ frame event "undefined"
  | JsonThrows err =>
      fst (emit JSON_stringify event data (s, r)) = Throw err /\
      res_body (snd (snd (emit JSON_stringify event data (s, r))))
      = res_body r ++ [WText ("event: " +:+ event +:+ LF)]
  end.
Proof.
  intros Hcl. unfold emit. rewrite Hcl.
  destruct (stringify JSON_stringify data) as [t| |err]; [exact I | |].
  - simpl. split; [reflexivity|]. by rewrite <- List.app_assoc.
  - simpl. split; reflexivity.
Qed.

End SessionExtras.

(** ** The further properties at work on the demo application *)

Lemma registration_is_local_witness :
  request_path Demo.post_rpc <> "/other"%string /\
  dispatch Demo.JSON_stringify
    (set_route "/other" (RouteRpc Demo.void_handler) Demo.api) Demo.post_rpc
  = dispatch Demo.JSON_stringify Demo.api Demo.post_rpc.
Proof.
  assert (Hne : request_path Demo.post_rpc <> "/other"%string)
    by (vm_compute; discriminate).
  exact (conj Hne (registration_is_local string Demo.Value Demo.JSON_stringify
                     "/other" (RouteRpc Demo.void_handler) Demo.api Demo.post_rpc Hne)).
Defined.

Lemma upload_passthrough_witness :
  api_routes Demo.api !! request_path Demo.post_upload
  = Some (RouteUpload Demo.void_handler) /\
  req_method Demo.post_upload = Some "POST"%string /\
  res_statusCode (res (dispatch Demo.JSON_stringify Demo.api Demo.post_upload)) = 200 /\
  res_body (res (dispatch Demo.JSON_stringify Demo.api Demo.post_upload))
  = [WText (quoted "OK")] /\
  unread (dispatch Demo.JSON_stringify Demo.api Demo.post_upload)
  = [Demo.hello; Demo.e_acute].
Proof.
  destruct (upload_passthrough string Demo.Value Demo.JSON_stringify
              Demo.api Demo.post_upload Demo.void_handler None
              eq_refl eq_refl eq_refl) as (H1 & H2 & _ & _ & H5).
  exact (conj eq_refl (conj eq_refl (conj H1 (conj H2 H5)))).
Defined.

Lemma upload_rejects_before_reading_witness :
  api_routes Demo.api !! request_path Demo.get_upload
  = Some (RouteUpload Demo.void_handler) /\
  req_method Demo.get_upload <> Some "POST"%string /\
  req_method Demo.get_upload <> Some "OPTIONS"%string /\
  res_statusCode (res (dispatch Demo.JSON_stringify Demo.api Demo.get_upload)) = 405 /\
  calls (dispatch Demo.JSON_stringify Demo.api Demo.get_upload) = [] /\
  unread (dispatch Demo.JSON_stringify Demo.api Demo.get_upload) = [Demo.hello].
Proof.
  assert (Hm : req_method Demo.get_upload <> Some "POST"%string) by discriminate.
  assert (Ho : req_method Demo.get_upload <> Some "OPTIONS"%string) by discriminate.
  destruct (upload_rejects_before_reading string Demo.Value Demo.JSON_stringify
              Demo.api Demo.get_upload Demo.void_handler eq_refl Hm Ho)
    as (H1 & _ & H3 & H4).
  exact (conj eq_refl (conj Hm (conj Ho (conj H1 (conj H3 H4))))).
Defined.

Lemma handler_throw_mapped_witness :
  api_routes Demo.api2 !! request_path Demo.post_locked
  = Some (RouteUpload Demo.forbidden_handler) /\
  req_method Demo.post_locked = Some "POST"%string /\
  thrown_by (RouteUpload Demo.forbidden_handler)
    (handler_context Demo.api2 Demo.post_locked (RouteUpload Demo.forbidden_handler))
  = Some (ThrownHttpError ForbiddenError) /\
  res_statusCode (res (dispatch Demo.JSON_stringify Demo.api2 Demo.post_locked)) = 403 /\
  res_body (res (dispatch Demo.JSON_stringify Demo.api2 Demo.post_locked))
  = [WText (quoted "FORBIDDEN")].
Proof.
  assert (Hs : acquires_body (kind (RouteUpload (Ctx := string) Demo.forbidden_handler))
               = true ->
               total_size (req_stream Demo.post_locked)
               <= maxSize (api_options Demo.api2))
    by (intros H; discriminate H).
  destruct (handler_throw_mapped string Demo.Value Demo.JSON_stringify
              Demo.api2 Demo.post_locked (RouteUpload Demo.forbidden_handler)
              (ThrownHttpError ForbiddenError) eq_refl eq_refl Hs eq_refl)
    as (H1 & H2 & _).
  exact (conj eq_refl (conj eq_refl (conj eq_refl (conj H1 H2)))).
Defined.

Lemma blob_written_raw_witness :
  api_routes Demo.api2 !! request_path Demo.get_stream
  = Some (RouteBlob Demo.stream_handler) /\
  req_method Demo.get_stream = Some "GET"%string /\
  total_size (req_stream Demo.get_stream) <= maxSize (api_options Demo.api2) /\
  res_statusCode (res (dispatch Demo.JSON_stringify Demo.api2 Demo.get_stream)) = 200 /\
  res_body (res (dispatch Demo.JSON_stringify Demo.api2 Demo.get_stream))
  = [WPipe [Demo.hello; Demo.e_acute]].
Proof.
  assert (Hs : total_size (req_stream Demo.get_stream) <= maxSize (api_options Demo.api2))
    by (vm_compute; discriminate).
  destruct (blob_written_raw string Demo.Value Demo.JSON_stringify
              Demo.api2 Demo.get_stream Demo.stream_handler
              (BlobReadable [Demo.hello; Demo.e_acute]) eq_refl eq_refl Hs eq_refl)
    as (H1 & _ & H3).
  exact (conj eq_refl (conj eq_refl (conj Hs (conj H1 H3)))).
Defined.

Lemma rpc_unserialisable_result_witness :
  api_routes Demo.api2 !! request_path Demo.post_cyclic
  = Some (RouteRpc Demo.cyclic_handler) /\
  req_method Demo.post_cyclic = Some "POST"%string /\
  total_size (req_stream Demo.post_cyclic) <= maxSize (api_options Demo.api2) /\
  res_headers (res (dispatch Demo.JSON_stringify Demo.api2 Demo.post_cyclic))
    !! "content-type"%string = Some "application/json"%string /\
  res_body (res (dispatch Demo.JSON_stringify Demo.api2 Demo.post_cyclic))
  = [WText (quoted "INTERNAL_ERROR")] /\
  res_statusCode (res (dispatch Demo.JSON_stringify Demo.api2 Demo.post_cyclic)) = 500.
Proof.
  assert (Hs : total_size (req_stream Demo.post_cyclic)
               <= maxSize (api_options Demo.api2)) by (vm_compute; discriminate).
  destruct (rpc_unserialisable_result string Demo.Value Demo.JSON_stringify
              Demo.api2 Demo.post_cyclic Demo.cyclic_handler Demo.Cyclic
              eq_refl eq_refl Hs eq_refl) as (H1 & _ & H3).
  exact (conj eq_refl (conj eq_refl (conj Hs (conj H1 H3)))).
Defined.

Lemma cors_on_every_response_witness :
  api_cors Demo.api2 = Some (mkCorsOptions "https://example.org") /\
  res_statusCode (res (dispatch Demo.JSON_stringify Demo.api2 Demo.get_unknown)) = 404 /\
  res_headers (res (dispatch Demo.JSON_stringify Demo.api2 Demo.get_unknown))
    !! "Access-Control-Allow-Origin"%string = Some "https://example.org"%string.
Proof.
  destruct (cors_on_every_response string Demo.Value Demo.JSON_stringify
              Demo.api2 Demo.get_unknown (mkCorsOptions "https://example.org")
              eq_refl) as (H1 & _).
  exact (conj eq_refl (conj eq_refl H1)).
Defined.

Lemma no_cors_no_header_witness :
  api_cors Demo.api = None /\
  content_header "Access-Control-Allow-Origin" = false /\
  res_headers (res (dispatch Demo.JSON_stringify Demo.api Demo.post_rpc))
    !! "Access-Control-Allow-Origin"%string = None.
Proof.
  exact (conj eq_refl (conj eq_refl
           (no_cors_no_header string Demo.Value Demo.JSON_stringify
              Demo.api Demo.post_rpc "Access-Control-Allow-Origin" eq_refl eq_refl))).
Defined.

Lemma sse_stream_opened_witness :
  api_routes Demo.api !! request_path Demo.get_events
  = Some (RouteSse Demo.events_handler) /\
  req_method Demo.get_events = Some "GET"%string /\
  total_size (req_stream Demo.get_events) <= maxSize (api_options Demo.api) /\
  res_headers (res (dispatch Demo.JSON_stringify Demo.api Demo.get_events))
    !! "content-type"%string = Some "text/event-stream"%string /\
  res_headers (res (dispatch Demo.JSON_stringify Demo.api Demo.get_events))
    !! "cache-control"%string = Some "no-cache"%string /\
  res_headers (res (dispatch Demo.JSON_stringify Demo.api Demo.get_events))
    !! "connection"%string = Some "keep-alive"%string.
Proof.
  assert (Hs : total_size (req_stream Demo.get_events) <= maxSize (api_options Demo.api))
    by (vm_compute; discriminate).
  destruct (sse_stream_opened string Demo.Value Demo.JSON_stringify
              Demo.api Demo.get_events Demo.events_handler eq_refl eq_refl Hs)
    as (H1 & H2 & H3 & _).
  exact (conj eq_refl (conj eq_refl (conj Hs (conj H1 (conj H2 H3))))).
Defined.

Lemma sse_method_mismatch_witness :
  api_routes Demo.api !! request_path Demo.post_events
  = Some (RouteSse Demo.events_handler) /\
  req_method Demo.post_events <> Some "GET"%string /\
  req_method Demo.post_events <> Some "OPTIONS"%string /\
  total_size (req_stream Demo.post_events) <= maxSize (api_options Demo.api) /\
  res_statusCode (res (dispatch Demo.JSON_stringify Demo.api Demo.post_events)) = 405 /\
  session (dispatch Demo.JSON_stringify Demo.api Demo.post_events) = None.
Proof.
  assert (Hm : req_method Demo.post_events <> Some "GET"%string) by discriminate.
  assert (Ho : req_method Demo.post_events <> Some "OPTIONS"%string) by discriminate.
  assert (Hs : total_size (req_stream Demo.post_events) <= maxSize (api_options Demo.api))
    by (vm_compute; discriminate).
  destruct (sse_method_mismatch string Demo.Value Demo.JSON_stringify
              Demo.api Demo.post_events Demo.events_handler eq_refl Hm Ho Hs)
    as (H1 & _ & _ & _ & H5 & _).
  exact (conj eq_refl (conj Hm (conj Ho (conj Hs (conj H1 H5))))).
Defined.

Lemma size_decision_by_total_witness :
  api_routes Demo.strict_api !! request_path Demo.post_rpc
  = Some (RouteRpc Demo.rpc_handler) /\
  req_method Demo.post_rpc = Some "POST"%string /\
  0 <= maxSize (api_options Demo.strict_api) /\
  maxSize (api_options Demo.strict_api)
  < Buffer_length (payload (req_stream Demo.post_rpc)) /\
  calls (dispatch Demo.JSON_stringify Demo.strict_api Demo.post_rpc) = [].
Proof.
  assert (H0 : 0 <= maxSize (api_options Demo.strict_api))
    by (vm_compute; discriminate).
  assert (Hover : maxSize (api_options Demo.strict_api)
                  < Buffer_length (payload (req_stream Demo.post_rpc)))
    by reflexivity.
  destruct (size_decision_by_total string Demo.Value Demo.JSON_stringify
              Demo.strict_api Demo.post_rpc Demo.rpc_handler eq_refl eq_refl H0)
    as [_ H].
  exact (conj eq_refl (conj eq_refl (conj H0 (conj Hover (H Hover))))).
Defined.

Lemma rpc_body_on_boundaries_witness :
  api_routes Demo.api !! request_path Demo.post_hello_split
  = Some (RouteRpc Demo.rpc_handler) /\
  req_method Demo.post_hello_split = Some "POST"%string /\
  total_size (req_stream Demo.post_hello_split) <= maxSize (api_options Demo.api) /\
  Forall (fun chunk => Utf8.complete (List.map byte_value chunk))
    (req_stream Demo.post_hello_split) /\
  List.map (fun call => req_body (ctx_req (snd call)))
    (calls (dispatch Demo.JSON_stringify Demo.api Demo.post_hello_split))
  = [Some (toString_utf8 Demo.hello)].
Proof.
  assert (Hs : total_size (req_stream Demo.post_hello_split)
               <= maxSize (api_options Demo.api)) by (vm_compute; discriminate).
  assert (Hcut : Forall (fun chunk => Utf8.complete (List.map byte_value chunk))
                   (req_stream Demo.post_hello_split))
    by (repeat constructor).
  exact (conj eq_refl (conj eq_refl (conj Hs (conj Hcut
           (rpc_body_on_boundaries string Demo.Value Demo.JSON_stringify
              Demo.api Demo.post_hello_split Demo.rpc_handler
              eq_refl eq_refl Hs Hcut))))).
Defined.

Lemma http_error_body_determines_code_witness :
  body ForbiddenError = body (HttpError_new 500 "FORBIDDEN") /\
  message ForbiddenError = message (HttpError_new 500 "FORBIDDEN") /\
  body ForbiddenError
  = String (ascii_of_nat 34) ("FORBIDDEN" +:+ String (ascii_of_nat 34) EmptyString).
Proof.
  destruct (http_error_body_determines_code ForbiddenError
              (HttpError_new 500 "FORBIDDEN")) as (Hbody & H & _).
  exact (conj eq_refl (conj (H eq_refl) Hbody)).
Defined.

Lemma late_registration_never_called_witness :
  closed Demo.closed_session = true /\
  cursor Demo.closed_session = None /\
  ran (fst (run Demo.JSON_stringify
              [EvOnCleanup Demo.failing; EvClose RequestSide; EvSettle false]
              (Demo.closed_session, fresh_response)))
  = [Demo.first; Demo.second].
Proof.
  exact (conj eq_refl (conj eq_refl
           (late_registration_never_called Demo.Value Demo.JSON_stringify
              Demo.closed_session fresh_response
              [EvOnCleanup Demo.failing; EvClose RequestSide; EvSettle false]
              eq_refl eq_refl))).
Defined.

Lemma closed_session_writes_nothing_witness :
  closed Demo.closed_session = true /\
  throw_free Demo.handler_events = true /\
  snd (run Demo.JSON_stringify Demo.handler_events
         (Demo.closed_session, fresh_response))
  = fresh_response.
Proof.
  exact (conj eq_refl (conj eq_refl
           (closed_session_writes_nothing Demo.Value Demo.JSON_stringify
              Demo.closed_session fresh_response Demo.handler_events
              eq_refl eq_refl))).
Defined.

Lemma emits_in_order_witness :
  closed new_session = false /\
  Forall (fun e => stringify Demo.JSON_stringify (snd (fst e)) = JsonText (snd e))
    Demo.ticks /\
  res_body (snd (run Demo.JSON_stringify (List.map emission_event Demo.ticks)
                   (new_session, fresh_response)))
  = frame "tick" ("{" +:+ quoted "a" +:+ ":1}")
    ++ frame "tock" ("{" +:+ quoted "a" +:+ ":1}").
Proof.
  assert (Hall : Forall (fun e => stringify Demo.JSON_stringify (snd (fst e))
                                  = JsonText (snd e)) Demo.ticks)
    by (repeat constructor).
  destruct (emits_in_order Demo.Value Demo.JSON_stringify new_session fresh_response
              Demo.ticks eq_refl Hall) as (_ & H & _).
  exact (conj eq_refl (conj Hall H)).
Defined.

Lemma emit_unserialisable_witness :
  closed new_session = false /\
  fst (emit Demo.JSON_stringify "tick" (Some Demo.Cyclic) (new_session, fresh_response))
  = Throw (ThrownOther "TypeError: Converting circular structure to JSON") /\
  res_body (snd (snd (emit Demo.JSON_stringify "tick" (Some Demo.Cyclic)
                        (new_session, fresh_response))))
  = [WText ("event: tick" +:+ LF)].
Proof.
  exact (conj eq_refl
           (emit_unserialisable Demo.Value Demo.JSON_stringify new_session
              fresh_response "tick" (Some Demo.Cyclic) eq_refl)).
Defined.

(** * Failures thrown during a dispatch *)

Section ThrownFailures.

Variable Ctx : Type.
Variable Value : Type.
Variable JSON_stringify : Value -> Stringified.

(** The response of a dispatch whose RPC, Blob or Upload handler throws
    is what [handleError] makes of the response that holds the CORS
    headers. *)
Lemma dispatch_throw_response (api : Api Ctx Value) (req : IncomingMessage)
    (route : Route Ctx Value) (err : Thrown) :
  api_routes api !! request_path req = Some route ->
  req_method req = Some (required_method (kind route)) ->
  (acquires_body (kind route) = true ->
   total_size (req_stream req) <= maxSize (api_options api)) ->
  thrown_by route (handler_context api req route) = Some err ->
  res (dispatch JSON_stringify api req)
  = handleError err (cors_headers (api_cors api) fresh_response).
Proof.
  intros Hr Hm Hsize Hthrow. unfold dispatch.
  assert (Ho : req_method req <> Some "OPTIONS"%string).
  { rewrite Hm. destruct route; discriminate. }
  rewrite (method_is_false _ _ Ho), Hr.
  destruct route as [h|h|h|h]; simpl in Hm, Hsize, Hthrow; try discriminate Hthrow.
  - rewrite (readBody_within _ _ 0 []) by (specialize (Hsize eq_refl); lia).
    rewrite List.app_nil_l. cbv beta iota zeta.
    rewrite (method_is_true _ _ Hm). simpl.
    destruct (h _) as [v|e]; [discriminate Hthrow|]. by injection Hthrow as ->.
  - rewrite (readBody_within _ _ 0 []) by (specialize (Hsize eq_refl); lia).
    rewrite List.app_nil_l. cbv beta iota zeta.
    rewrite (method_is_true _ _ Hm). simpl.
    destruct (h _) as [v|e]; [discriminate Hthrow|]. by injection Hthrow as ->.
  - cbv beta iota zeta. rewrite (method_is_true _ _ Hm). simpl.
    destruct (h _) as [v|e]; [discriminate Hthrow|]. by injection Hthrow as ->.
Qed.

(** The response of a dispatch whose SSE handler throws after the
    schedule [emitted]. *)
Lemma dispatch_sse_throw_response (api : Api Ctx Value) (req : IncomingMessage)
    (handler : Context Ctx -> list (Event Value)) (emitted : list (Event Value))
    (err : Thrown) :
  api_routes api !! request_path req = Some (RouteSse handler) ->
  req_method req = Some "GET"%string ->
  total_size (req_stream req) <= maxSize (api_options api) ->
  handler (mkContext (reqWithBody req (decode_chunks (req_stream req))) (api_ctx api))
    = emitted ++ [EvReturn (Throw err)] ->
  res (dispatch JSON_stringify api req)
  = handleError err
      (snd (run JSON_stringify emitted (new_session, sse_response api))).
Proof.
  intros Hr Hm Hsize Hh. unfold dispatch, sse_response.
  assert (Ho : req_method req <> Some "OPTIONS"%string) by (rewrite Hm; discriminate).
  rewrite (method_is_false _ _ Ho), Hr.
  rewrite (readBody_within _ _ 0 []) by lia.
  rewrite List.app_nil_l. cbv beta iota zeta.
  rewrite (method_is_true _ _ Hm), Hh. simpl negb. cbv iota.
  rewrite run_app.
  destruct (run JSON_stringify emitted _) as [s r2]. reflexivity.
Qed.

(** C4, as the dispatcher has it. Every thrown value has a status and a
    code: a typed HTTP error its own, a validation failure 400 and its
    own code, anything else 500 and INTERNAL_ERROR. [handleError] sets
    that status and ends the response with the quoted code, adding
    nothing else, no message and no stack. When an RPC, Blob or Upload
    handler throws, or the serialisation of an RPC result does, nothing
    was written before and the body of the response is the quoted code
    alone. When an SSE handler throws, the quoted code comes after what
    the session has written so far. *)
Theorem thrown_failure_mapped (err : Thrown) :
  let '(status, c) := spec_mapping err in
  (forall r : ServerResponse,
     res_statusCode (handleError err r) = status /\
     res_body (handleError err r) = res_body r ++ [WText (quoted c)] /\
     res_headers (handleError err r) = res_headers r /\
     res_finished (handleError err r) = true) /\
  (forall (api : Api Ctx Value) (req : IncomingMessage) (route : Route Ctx Value),
     api_routes api !! request_path req = Some route ->
     req_method req = Some (required_method (kind route)) ->
     (acquires_body (kind route) = true ->
      total_size (req_stream req) <= maxSize (api_options api)) ->
     thrown_by route (handler_context api req route) = Some err ->
     let w := dispatch JSON_stringify api req in
     res_statusCode (res w) = status /\
     res_body (res w) = [WText (quoted c)] /\
     res_finished (res w) = true) /\
  (forall (api : Api Ctx Value) (req : IncomingMessage)
          (handler : Context Ctx -> Completion (JsValue Value)) (v : Value),
     api_routes api !! request_path req = Some (RouteRpc handler) ->
     req_method req = Some "POST"%string ->
     total_size (req_stream req) <= maxSize (api_options api) ->
     handler (mkContext (reqWithBody req (decode_chunks (req_stream req))) (api_ctx api))
       = Normal (Some v) ->
     JSON_stringify v = JsonThrows err ->
     let w := dispatch JSON_stringify api req in
     res_statusCode (res w) = status /\
     res_body (res w) = [WText (quoted c)] /\
     res_finished (res w) = true) /\
  (forall (api : Api Ctx Value) (req : IncomingMessage)
          (handler : Context Ctx -> list (Event Value)) (emitted : list (Event Value)),
     api_routes api !! request_path req = Some (RouteSse handler) ->
     req_method req = Some "GET"%string ->
     total_size (req_stream req) <= maxSize (api_options api) ->
     handler (mkContext (reqWithBody req (decode_chunks (req_stream req))) (api_ctx api))
       = emitted ++ [EvReturn (Throw err)] ->
     let w := dispatch JSON_stringify api req in
     res_statusCode (res w) = status /\
     res_body (res w)
     = res_body (snd (run JSON_stringify emitted (new_session, sse_response api)))
       ++ [WText (quoted c)] /\
     res_finished (res w) = true).
Proof.
  pose proof (handleError_respond err) as Hmap.
  destruct (spec_mapping err) as [status c]. simpl in Hmap.
  split_and!.
  - intros r. rewrite Hmap. split_and!; reflexivity.
  - intros api req route Hr Hm Hsize Hthrow. cbv zeta.
    rewrite (dispatch_throw_response api req route err Hr Hm Hsize Hthrow), Hmap.
    rewrite respond_body, cors_headers_body. split_and!; reflexivity.
  - intros api req handler v Hr Hm Hsize Hh Hv. cbv zeta. unfold dispatch.
    assert (Ho : req_method req <> Some "OPTIONS"%string)
      by (rewrite Hm; discriminate).
    rewrite (method_is_false _ _ Ho), Hr.
    rewrite (readBody_within _ _ 0 []) by lia.
    rewrite List.app_nil_l. cbv beta iota zeta.
    rewrite (method_is_true _ _ Hm), Hh, Hv. simpl. rewrite Hmap. simpl.
    rewrite cors_headers_body. split_and!; reflexivity.
  - intros api req handler emitted Hr Hm Hsize Hh. cbv zeta.
    rewrite (dispatch_sse_throw_response api req handler emitted err Hr Hm Hsize Hh).
    rewrite Hmap. split_and!; reflexivity.
Qed.

End ThrownFailures.

(** C4 as stated fails: the handler of [/failing] emits one event and
    then throws the forbidden error; the body of the response is the two
    strings of the frame followed by the quoted code, not the quoted
    code alone. *)
Lemma sse_throw_after_emit :
  api_routes Demo.api3 !! request_path Demo.get_failing
  = Some (RouteSse Demo.failing_events_handler) /\
  Demo.failing_events
  = [EvEmit "tick" (Some Demo.ObjectA1);
     EvReturn (Throw (ThrownHttpError ForbiddenError))] /\
  res_body (res (dispatch Demo.JSON_stringify Demo.api3 Demo.get_failing))
  = [WText ("event: tick" +:+ LF);
     WText ("data: {" +:+ quoted "a" +:+ ":1}" +:+ LF +:+ LF);
     WText (quoted "FORBIDDEN")] /\
  res_body (res (dispatch Demo.JSON_stringify Demo.api3 Demo.get_failing))
  <> [WText (quoted "FORBIDDEN")].
Proof. split_and!; try reflexivity. vm_compute. discriminate. Qed.

Lemma thrown_failure_mapped_witness :
  (* an upload handler that throws the forbidden error *)
  (api_routes Demo.api2 !! request_path Demo.post_locked
   = Some (RouteUpload Demo.forbidden_handler) /\
   req_method Demo.post_locked = Some "POST"%string /\
   thrown_by (RouteUpload Demo.forbidden_handler)
     (handler_context Demo.api2 Demo.post_locked (RouteUpload Demo.forbidden_handler))
   = Some (ThrownHttpError ForbiddenError) /\
   res_statusCode (res (dispatch Demo.JSON_stringify Demo.api2 Demo.post_locked)) = 403 /\
   res_body (res (dispatch Demo.JSON_stringify Demo.api2 Demo.post_locked))
   = [WText (quoted "FORBIDDEN")]) /\
  (* an SSE handler that throws it after one emit *)
  (api_routes Demo.api3 !! request_path Demo.get_failing
   = Some (RouteSse Demo.failing_events_handler) /\
   req_method Demo.get_failing = Some "GET"%string /\
   total_size (req_stream Demo.get_failing) <= maxSize (api_options Demo.api3) /\
   res_body (res (dispatch Demo.JSON_stringify Demo.api3 Demo.get_failing))
   = res_body (snd (run Demo.JSON_stringify [EvEmit "tick" (Some Demo.ObjectA1)]
                      (new_session, sse_response Demo.api3)))
     ++ [WText (quoted "FORBIDDEN")]) /\
  (* an RPC result that does not serialise *)
  (api_routes Demo.api2 !! request_path Demo.post_cyclic
   = Some (RouteRpc Demo.cyclic_handler) /\
   req_method Demo.post_cyclic = Some "POST"%string /\
   total_size (req_stream Demo.post_cyclic) <= maxSize (api_options Demo.api2) /\
   Demo.JSON_stringify Demo.Cyclic
   = JsonThrows (ThrownOther "TypeError: Converting circular structure to JSON") /\
   res_statusCode (res (dispatch Demo.JSON_stringify Demo.api2 Demo.post_cyclic)) = 500 /\
   res_body (res (dispatch Demo.JSON_stringify Demo.api2 Demo.post_cyclic))
   = [WText (quoted "INTERNAL_ERROR")]).
Proof.
  assert (Hup : acquires_body (kind (RouteUpload (Ctx := string) Demo.forbidden_handler))
                = true ->
                total_size (req_stream Demo.post_locked)
                <= maxSize (api_options Demo.api2))
    by (intros H; discriminate H).
  assert (Hsse : total_size (req_stream Demo.get_failing)
                 <= maxSize (api_options Demo.api3)) by (vm_compute; discriminate).
  assert (Hrpc : total_size (req_stream Demo.post_cyclic)
                 <= maxSize (api_options Demo.api2)) by (vm_compute; discriminate).
  destruct (thrown_failure_mapped string Demo.Value Demo.JSON_stringify
              (ThrownHttpError ForbiddenError)) as (_ & Hdispatch & _ & Hstream).
  destruct (thrown_failure_mapped string Demo.Value Demo.JSON_stringify
              (ThrownOther "TypeError: Converting circular structure to JSON"))
    as (_ & _ & Hjson & _).
  destruct (Hdispatch Demo.api2 Demo.post_locked (RouteUpload Demo.forbidden_handler)
              eq_refl eq_refl Hup eq_refl) as (U1 & U2 & _).
  destruct (Hstream Demo.api3 Demo.get_failing Demo.failing_events_handler
              [EvEmit "tick" (Some Demo.ObjectA1)] eq_refl eq_refl Hsse eq_refl)
    as (_ & S2 & _).
  destruct (Hjson Demo.api2 Demo.post_cyclic Demo.cyclic_handler Demo.Cyclic
              eq_refl eq_refl Hrpc eq_refl eq_refl) as (J1 & J2 & _).
  split_and!; try reflexivity; assumption.
Defined.
